(** * Delta Force configuration assistant: process monitor, delayed restore
      and INI patching

    A shallow embedding of the Python sources [app.py], [jiance.py] and
    [main.py].  Threads, Tk timers and the file system are modelled by
    explicit state passing; Python exceptions by a result type; the
    outcomes of operating-system calls that the program cannot determine
    (a probe raising, a chmod being refused, a write failing half-way) are
    inputs of the functions that perform them. *)

From Stdlib Require Import ZArith Lia Bool List String.
From stdpp Require Import base option list gmap strings pretty.

Open Scope string_scope.

(** ** Python exceptions and results *)

Inductive exn : Type :=
| NoSuchProcess                 (* psutil.NoSuchProcess *)
| AccessDenied                  (* psutil.AccessDenied *)
| OSError (msg : string)        (* OSError and its subclasses *)
| UnicodeDecodeError            (* a ValueError, not an OSError *)
| RuntimeError (msg : string).  (* any other Exception *)

(** [str(exc)] as used by the f-strings of the sources. *)
Definition exn_str (e : exn) : string :=
  match e with
  | NoSuchProcess => "process no longer exists"
  | AccessDenied => "access denied"
  | OSError msg => msg
  | UnicodeDecodeError => "'utf-8' codec can't decode"
  | RuntimeError msg => msg
  end.

Inductive result (A : Type) : Type :=
| Ok (a : A)
| Raise (e : exn).
Arguments Ok {A} a.
Arguments Raise {A} e.

(** ** The process probe ([_is_process_running], [GameMonitor.is_game_running]) *)

Module Probe.

(** One element produced by [psutil.process_iter(["name", "exe"])]: either
    the prefetched [info] dictionary, or an exception raised while the
    entry is inspected. *)
Inductive entry : Type :=
| Info (name exe : option string)
| Raises (e : exn).

Section WithPlatform.
(** [str.lower] and [Path.resolve] are platform functions. *)
Variable lower : string -> string.
Variable resolve : string -> string.

(** Python truthiness of an optional string: [None] and [""] are falsy. *)
Definition truthy (o : option string) : option string :=
  match o with
  | Some "" => None
  | other => other
  end.

Definition name_matches (process_stem : string) (name : option string) : bool :=
  match truthy name with
  | Some n => String.prefix process_stem (lower n)
  | None => false
  end.

Definition exe_matches (exe_path : string) (executable : option string) : bool :=
  match truthy executable with
  | Some x => if decide (resolve x = resolve exe_path) then true else false
  | None => false
  end.

(** app.py, [_is_process_running]: psutil access errors skip the entry,
    any other exception leaves the function. *)
Fixpoint _is_process_running (process_stem exe_path : string)
         (procs : list entry) : result bool :=
  match procs with
  | [] => Ok false
  | Info name exe :: rest =>
      if name_matches process_stem name then Ok true
      else if exe_matches exe_path exe then Ok true
      else _is_process_running process_stem exe_path rest
  | Raises NoSuchProcess :: rest
  | Raises AccessDenied :: rest =>
      _is_process_running process_stem exe_path rest
  | Raises e :: _ => Raise e
  end.

(** jiance.py, [GameMonitor.is_game_running]: the same scan under a
    blanket [except Exception] that prints and answers [False].  The
    second component is what is printed. *)
Definition is_game_running (game_stem game_path : string)
           (procs : list entry) : bool * list string :=
  match _is_process_running (lower game_stem) game_path procs with
  | Ok b => (b, [])
  | Raise e => (false, ["检查进程时出错: " +:+ exn_str e])
  end.
End WithPlatform.

(** [str.lower] on ASCII letters and a [resolve] for paths that are
    already absolute, for running the probe. *)
Definition ascii_lower (s : string) : string :=
  string_of_list_ascii
    (map (λ c, let n := Ascii.nat_of_ascii c in
               if (65 <=? n)%nat && (n <=? 90)%nat
               then Ascii.ascii_of_nat (n + 32) else c)
         (list_ascii_of_string s)).

Definition resolved (p : string) : string := p.

End Probe.

(** ** app.py: [ConfigMonitor] *)

Module Monitor.

(** Calls made on the [MonitorCallbacks] record. *)
Inductive callback : Type :=
| on_log (msg : string)
| on_game_started
| on_game_stopped
| on_error (msg : string).

Global Instance callback_eq_dec : EqDecision callback.
Proof. solve_decision. Defined.

Inductive thread_status : Type :=
| Running                (* inside the while loop *)
| Returned               (* [run] returned *)
| Died (e : exn).        (* [run] re-raised [e] *)

(** The thread object: the stop event, the local [last_running] of [run],
    and whether [run] is still executing. *)
Record ConfigMonitor : Type := {
  _stop_event : bool;
  last_running : bool;
  status : thread_status
}.

(** State when [run] is entered: [last_running = False]. *)
Definition started_thread : ConfigMonitor :=
  {| _stop_event := false; last_running := false; status := Running |}.

Definition stop (m : ConfigMonitor) : ConfigMonitor :=
  {| _stop_event := true; last_running := last_running m; status := status m |}.

Definition is_alive (m : ConfigMonitor) : bool :=
  match status m with Running => true | _ => false end.

(** The callbacks of one pass for a probe answer [running]. *)
Definition edge_callbacks (last running : bool) : list callback :=
  if running && negb last then
    [on_log "检测到游戏进程启动。"; on_game_started]
  else if negb running && last then
    [on_log "检测到游戏进程结束。"; on_game_stopped]
  else [].

(** One pass of [while not self._stop_event.is_set()], including the wait
    slices: a set stop event ends [run]; otherwise the probe is called
    with outcome [probe]. *)
Definition iteration (probe : result bool) (m : ConfigMonitor)
  : ConfigMonitor * list callback :=
  match status m with
  | Running =>
      if _stop_event m then
        ({| _stop_event := true; last_running := last_running m;
            status := Returned |}, [])
      else
        match probe with
        | Ok running =>
            ({| _stop_event := false; last_running := running;
                status := Running |},
             edge_callbacks (last_running m) running)
        | Raise e =>
            ({| _stop_event := false; last_running := last_running m;
                status := Died e |},
             [on_error ("监控线程发生异常: " +:+ exn_str e)])
        end
  | _ => (m, [])
  end.

(** The same pass when another thread calls [stop()] after the loop head
    has been passed, that is while the probe or the callbacks run: the
    pass is carried out, and the first wait slice then returns from
    [run]. *)
Definition interrupted_iteration (probe : result bool) (m : ConfigMonitor)
  : ConfigMonitor * list callback :=
  match status m with
  | Running =>
      if _stop_event m then
        ({| _stop_event := true; last_running := last_running m;
            status := Returned |}, [])
      else
        match probe with
        | Ok running =>
            ({| _stop_event := true; last_running := running;
                status := Returned |},
             edge_callbacks (last_running m) running)
        | Raise e =>
            ({| _stop_event := true; last_running := last_running m;
                status := Died e |},
             [on_error ("监控线程发生异常: " +:+ exn_str e)])
        end
  | _ => (stop m, [])
  end.

(** [run] fed one probe outcome per tick; the callbacks of each tick. *)
Fixpoint run_from (m : ConfigMonitor) (probes : list (result bool))
  : ConfigMonitor * list (list callback) :=
  match probes with
  | [] => (m, [])
  | p :: rest =>
      let '(m1, cbs) := iteration p m in
      let '(m2, later) := run_from m1 rest in
      (m2, cbs :: later)
  end.

Definition run (probes : list (result bool)) : ConfigMonitor * list (list callback) :=
  run_from started_thread probes.

Definition run_callbacks (probes : list (result bool)) : list callback :=
  concat (snd (run probes)).

End Monitor.

(** ** jiance.py: [GameMonitor] *)

Module Jiance.

Inductive output : Type :=
| send_notification (title message : string)
| print (text : string).

Global Instance output_eq_dec : EqDecision output.
Proof. solve_decision. Defined.

Record GameMonitor : Type := {
  game_name : string;
  is_running : bool;
  monitoring : bool;
  has_monitor_thread : bool     (* [hasattr(self, 'monitor_thread')] *)
}.

Definition init (name : string) : GameMonitor :=
  {| game_name := name; is_running := false; monitoring := false;
     has_monitor_thread := false |}.

Definition started_notification (g : GameMonitor) : output :=
  send_notification "🎮 游戏已启动" (game_name g +:+ " 正在运行中").

Definition stopped_notification (g : GameMonitor) : output :=
  send_notification "⏹️ 游戏已关闭" (game_name g +:+ " 已停止运行").

(** One pass of [while self.monitoring] in [monitor_loop];
    [current_status] is the answer of [is_game_running]. *)
Definition loop_pass (current_status : bool) (g : GameMonitor)
  : GameMonitor * list output :=
  if monitoring g then
    if current_status && negb (is_running g) then
      ({| game_name := game_name g; is_running := true;
          monitoring := monitoring g;
          has_monitor_thread := has_monitor_thread g |},
       [started_notification g])
    else if negb current_status && is_running g then
      ({| game_name := game_name g; is_running := false;
          monitoring := monitoring g;
          has_monitor_thread := has_monitor_thread g |},
       [stopped_notification g])
    else (g, [])
  else (g, []).

Fixpoint monitor_loop (g : GameMonitor) (statuses : list bool)
  : GameMonitor * list (list output) :=
  match statuses with
  | [] => (g, [])
  | b :: rest =>
      let '(g1, out) := loop_pass b g in
      let '(g2, later) := monitor_loop g1 rest in
      (g2, out :: later)
  end.

Definition start_monitoring (g : GameMonitor) : GameMonitor * list output :=
  if monitoring g then (g, [print "监控已在运行中"])
  else ({| game_name := game_name g; is_running := is_running g;
           monitoring := true; has_monitor_thread := true |}, []).


(** The loop driven by process-table snapshots: a probe that raises is
    printed and counted as "not running". *)
Section WithPlatform.
Variable lower : string -> string.
Variable resolve : string -> string.

Fixpoint monitor_loop_on (game_stem game_path : string) (g : GameMonitor)
         (tables : list (list Probe.entry)) : GameMonitor * list (list output) :=
  match tables with
  | [] => (g, [])
  | t :: rest =>
      if monitoring g then
        let '(b, printed) := Probe.is_game_running lower resolve game_stem game_path t in
        let '(g1, out) := loop_pass b g in
        let '(g2, later) := monitor_loop_on game_stem game_path g1 rest in
        (g2, (map print printed ++ out)%list :: later)
      else
        let '(g2, later) := monitor_loop_on game_stem game_path g rest in
        (g2, [] :: later)
  end.
End WithPlatform.

End Jiance.

(** ** app.py: files, Tk timers and the application object *)

Module App.
Import Monitor.

(** *** Files with permission bits *)

Definition S_IWRITE : Z := 128.   (* stat.S_IWRITE = 0o200 *)

Record file : Type := {
  content : string;     (* the bytes of the file *)
  st_mode : Z
}.

Abbreviation filesystem := (gmap string file).

Definition is_writable (f : file) : bool := Z.testbit (st_mode f) 7.
Definition is_read_only (f : file) : bool := negb (is_writable f).

(** Calls made to the operating system, in order. *)
Inductive fs_call : Type :=
| call_chmod (target : string) (mode : Z)
| call_copy2 (src dst : string).

Definition chmod (target : string) (mode : Z) (disk : filesystem) : filesystem :=
  match disk !! target with
  | Some f => <[target := {| content := content f; st_mode := mode |}]> disk
  | None => disk
  end.

(** [_ensure_writable]: [chmod(mode | S_IWRITE)] under [except Exception:
    pass]; [refused] says that the chmod raises. *)
Definition _ensure_writable (refused : bool) (target : string)
           (disk : filesystem) : filesystem * list fs_call :=
  match disk !! target with
  | None => (disk, [])
  | Some f =>
      let mode := Z.lor (st_mode f) S_IWRITE in
      if refused then (disk, [call_chmod target mode])
      else (chmod target mode disk, [call_chmod target mode])
  end.

(** [_ensure_read_only]: [chmod(mode & ~S_IWRITE)] under [except Exception:
    pass]. *)
Definition _ensure_read_only (refused : bool) (target : string)
           (disk : filesystem) : filesystem * list fs_call :=
  match disk !! target with
  | None => (disk, [])
  | Some f =>
      let mode := Z.land (st_mode f) (Z.lnot S_IWRITE) in
      if refused then (disk, [call_chmod target mode])
      else (chmod target mode disk, [call_chmod target mode])
  end.

(** How a [shutil.copy2] that passed its own checks ends. *)
Inductive copy_outcome : Type :=
| copy_completes
| copy_open_fails (msg : string)                  (* nothing written yet *)
| copy_write_fails (msg : string) (written : nat) (* destination truncated, [written] bytes copied *)
| copy_stat_fails (msg : string).                 (* data copied, [copystat] raised *)

Definition default_mode : Z := 438.   (* 0o666, the mode of a newly created file *)

Definition mode_or_default (disk : filesystem) (p : string) : Z :=
  match disk !! p with
  | Some f => st_mode f
  | None => default_mode
  end.

(** [shutil.copy2(src, dst)]: the source must exist and differ from the
    destination, a read-only destination cannot be opened for writing; the
    data is copied and then the source's mode ([copystat]). *)
Definition copy2 (outcome : copy_outcome) (src dst : string)
           (disk : filesystem) : filesystem * result unit :=
  match disk !! src with
  | None => (disk, Raise (OSError ("No such file or directory: " +:+ src)))
  | Some f =>
      if decide (src = dst) then
        (disk, Raise (OSError (src +:+ " and " +:+ dst +:+ " are the same file")))
      else
        match disk !! dst with
        | Some d =>
            if is_writable d then
              match outcome with
              | copy_completes => (<[dst := f]> disk, Ok tt)
              | copy_open_fails msg => (disk, Raise (OSError msg))
              | copy_write_fails msg n =>
                  (<[dst := {| content := substring 0 n (content f);
                               st_mode := st_mode d |}]> disk,
                   Raise (OSError msg))
              | copy_stat_fails msg =>
                  (<[dst := {| content := content f; st_mode := st_mode d |}]> disk,
                   Raise (OSError msg))
              end
            else (disk, Raise (OSError ("Permission denied: " +:+ dst)))
        | None =>
            match outcome with
            | copy_completes => (<[dst := f]> disk, Ok tt)
            | copy_open_fails msg => (disk, Raise (OSError msg))
            | copy_write_fails msg n =>
                (<[dst := {| content := substring 0 n (content f);
                             st_mode := default_mode |}]> disk,
                 Raise (OSError msg))
            | copy_stat_fails msg =>
                (<[dst := {| content := content f; st_mode := default_mode |}]> disk,
                 Raise (OSError msg))
            end
        end
  end.

(** What the operating system does during one restore. *)
Record restore_io : Type := {
  writable_chmod_refused : bool;
  copy_result : copy_outcome;
  read_only_chmod_refused : bool
}.

Definition no_faults : restore_io :=
  {| writable_chmod_refused := false; copy_result := copy_completes;
     read_only_chmod_refused := false |}.

(** The body of the [try] block of [_restore_backup_to_game]. *)
Definition restore_files (io : restore_io) (backup target : string)
           (disk : filesystem) : filesystem * list fs_call * result unit :=
  let '(d1, c1) := _ensure_writable (writable_chmod_refused io) target disk in
  match copy2 (copy_result io) backup target d1 with
  | (d2, Raise e) => (d2, (c1 ++ [call_copy2 backup target])%list, Raise e)
  | (d2, Ok _) =>
      let '(d3, c3) := _ensure_read_only (read_only_chmod_refused io) target d2 in
      (d3, (c1 ++ [call_copy2 backup target] ++ c3)%list, Ok tt)
  end.

(** *** The Tk event loop: [after] and [after_cancel] *)

Inductive command : Type :=
| cmd_log_message (msg : string)            (* lambda: self.log_message(message) *)
| cmd_on_game_started                       (* self._on_game_started *)
| cmd_on_game_stopped                       (* self._on_game_stopped *)
| cmd_handle_monitor_error (msg : string)   (* lambda: self._handle_monitor_error(message) *)
| cmd_restore_backup_to_game                (* self._restore_backup_to_game *)
| cmd_show_sponsor_popup.                   (* self._show_sponsor_popup *)

Global Instance command_eq_dec : EqDecision command.
Proof. solve_decision. Defined.

(** A scheduled callback; Tk names it "after#<job>", a non-empty string. *)
Record timer : Type := {
  job : nat;
  delay_ms : Z;
  cmd : command
}.

Record Tk : Type := {
  timers : list timer;
  next_job : nat
}.

Definition after (ms : Z) (c : command) (tk : Tk) : nat * Tk :=
  (next_job tk,
   {| timers := (timers tk ++ [{| job := next_job tk; delay_ms := ms; cmd := c |}])%list;
      next_job := S (next_job tk) |}).

Definition after_cancel (id : nat) (tk : Tk) : Tk :=
  {| timers := filter (λ t, job t ≠ id) (timers tk); next_job := next_job tk |}.

Definition destroy (tk : Tk) : Tk :=
  {| timers := []; next_job := next_job tk |}.

Definition find_timer (id : nat) (tk : Tk) : option timer :=
  head (filter (λ t, job t = id) (timers tk)).

Definition is_restore (t : timer) : bool :=
  if decide (cmd t = cmd_restore_backup_to_game) then true else false.

(** The restore timers that can still fire. *)
Definition live_restore_jobs (tk : Tk) : list nat :=
  map job (filter (λ t, is_restore t = true) (timers tk)).

(** *** [DeltaForceConfigApp] *)

Definition BACKUP_FILE : string := "ini/yuan/Engine.ini".
Definition DEFAULT_RESTORE_DELAY_SECONDS : Z := 8.

Record DeltaForceConfigApp : Type := {
  selected_config_path : option string;
  restore_delay_var : option Z;      (* [IntVar.get()]; [None] when it raises TclError *)
  monitor_thread : option ConfigMonitor;
  pending_restore_job : option nat;
  game_currently_running : bool;
  _closing : bool;
  root : Tk;
  disk : filesystem;
  fs_calls : list fs_call;                 (* operating-system calls made so far *)
  log_widget : list string;                (* lines of the log area *)
  dialogs : list (string * string);        (* messagebox title and text *)
  notifications : list (string * string);  (* _send_notification title and text *)
  stopped_threads : list ConfigMonitor     (* threads stopped and let go of *)
}.

(** Field updates. *)
Definition with_delay_var (v : option Z) (a : DeltaForceConfigApp) : DeltaForceConfigApp :=
  {| selected_config_path := selected_config_path a; restore_delay_var := v;
     monitor_thread := monitor_thread a; pending_restore_job := pending_restore_job a;
     game_currently_running := game_currently_running a; _closing := _closing a;
     root := root a; disk := disk a; fs_calls := fs_calls a;
     log_widget := log_widget a; dialogs := dialogs a; notifications := notifications a;
     stopped_threads := stopped_threads a |}.

Definition with_selected (p : option string) (a : DeltaForceConfigApp) : DeltaForceConfigApp :=
  {| selected_config_path := p; restore_delay_var := restore_delay_var a;
     monitor_thread := monitor_thread a; pending_restore_job := pending_restore_job a;
     game_currently_running := game_currently_running a; _closing := _closing a;
     root := root a; disk := disk a; fs_calls := fs_calls a;
     log_widget := log_widget a; dialogs := dialogs a; notifications := notifications a;
     stopped_threads := stopped_threads a |}.

Definition with_monitor (m : option ConfigMonitor) (a : DeltaForceConfigApp) : DeltaForceConfigApp :=
  {| selected_config_path := selected_config_path a; restore_delay_var := restore_delay_var a;
     monitor_thread := m; pending_restore_job := pending_restore_job a;
     game_currently_running := game_currently_running a; _closing := _closing a;
     root := root a; disk := disk a; fs_calls := fs_calls a;
     log_widget := log_widget a; dialogs := dialogs a; notifications := notifications a;
     stopped_threads := stopped_threads a |}.

(** [self.monitor_thread.stop(); self.monitor_thread.join(timeout=2);
    self.monitor_thread = None]: the thread object keeps existing with its
    stop event set. *)
Definition retire_thread (m : ConfigMonitor) (a : DeltaForceConfigApp)
  : DeltaForceConfigApp :=
  {| selected_config_path := selected_config_path a; restore_delay_var := restore_delay_var a;
     monitor_thread := None; pending_restore_job := pending_restore_job a;
     game_currently_running := game_currently_running a; _closing := _closing a;
     root := root a; disk := disk a; fs_calls := fs_calls a;
     log_widget := log_widget a; dialogs := dialogs a; notifications := notifications a;
     stopped_threads := (stopped_threads a ++ [stop m])%list |}.

Definition with_pending (j : option nat) (a : DeltaForceConfigApp) : DeltaForceConfigApp :=
  {| selected_config_path := selected_config_path a; restore_delay_var := restore_delay_var a;
     monitor_thread := monitor_thread a; pending_restore_job := j;
     game_currently_running := game_currently_running a; _closing := _closing a;
     root := root a; disk := disk a; fs_calls := fs_calls a;
     log_widget := log_widget a; dialogs := dialogs a; notifications := notifications a;
     stopped_threads := stopped_threads a |}.

Definition with_running (b : bool) (a : DeltaForceConfigApp) : DeltaForceConfigApp :=
  {| selected_config_path := selected_config_path a; restore_delay_var := restore_delay_var a;
     monitor_thread := monitor_thread a; pending_restore_job := pending_restore_job a;
     game_currently_running := b; _closing := _closing a;
     root := root a; disk := disk a; fs_calls := fs_calls a;
     log_widget := log_widget a; dialogs := dialogs a; notifications := notifications a;
     stopped_threads := stopped_threads a |}.

Definition with_closing (b : bool) (a : DeltaForceConfigApp) : DeltaForceConfigApp :=
  {| selected_config_path := selected_config_path a; restore_delay_var := restore_delay_var a;
     monitor_thread := monitor_thread a; pending_restore_job := pending_restore_job a;
     game_currently_running := game_currently_running a; _closing := b;
     root := root a; disk := disk a; fs_calls := fs_calls a;
     log_widget := log_widget a; dialogs := dialogs a; notifications := notifications a;
     stopped_threads := stopped_threads a |}.

Definition with_root (tk : Tk) (a : DeltaForceConfigApp) : DeltaForceConfigApp :=
  {| selected_config_path := selected_config_path a; restore_delay_var := restore_delay_var a;
     monitor_thread := monitor_thread a; pending_restore_job := pending_restore_job a;
     game_currently_running := game_currently_running a; _closing := _closing a;
     root := tk; disk := disk a; fs_calls := fs_calls a;
     log_widget := log_widget a; dialogs := dialogs a; notifications := notifications a;
     stopped_threads := stopped_threads a |}.

Definition with_disk (d : filesystem) (calls : list fs_call) (a : DeltaForceConfigApp)
  : DeltaForceConfigApp :=
  {| selected_config_path := selected_config_path a; restore_delay_var := restore_delay_var a;
     monitor_thread := monitor_thread a; pending_restore_job := pending_restore_job a;
     game_currently_running := game_currently_running a; _closing := _closing a;
     root := root a; disk := d; fs_calls := (fs_calls a ++ calls)%list;
     log_widget := log_widget a; dialogs := dialogs a; notifications := notifications a;
     stopped_threads := stopped_threads a |}.

Definition log_message (message : string) (a : DeltaForceConfigApp) : DeltaForceConfigApp :=
  {| selected_config_path := selected_config_path a; restore_delay_var := restore_delay_var a;
     monitor_thread := monitor_thread a; pending_restore_job := pending_restore_job a;
     game_currently_running := game_currently_running a; _closing := _closing a;
     root := root a; disk := disk a; fs_calls := fs_calls a;
     log_widget := (log_widget a ++ [message])%list;
     dialogs := dialogs a; notifications := notifications a;
     stopped_threads := stopped_threads a |}.

Definition messagebox (title message : string) (a : DeltaForceConfigApp) : DeltaForceConfigApp :=
  {| selected_config_path := selected_config_path a; restore_delay_var := restore_delay_var a;
     monitor_thread := monitor_thread a; pending_restore_job := pending_restore_job a;
     game_currently_running := game_currently_running a; _closing := _closing a;
     root := root a; disk := disk a; fs_calls := fs_calls a;
     log_widget := log_widget a;
     dialogs := (dialogs a ++ [(title, message)])%list; notifications := notifications a;
     stopped_threads := stopped_threads a |}.

Definition _send_notification (title message : string) (a : DeltaForceConfigApp)
  : DeltaForceConfigApp :=
  {| selected_config_path := selected_config_path a; restore_delay_var := restore_delay_var a;
     monitor_thread := monitor_thread a; pending_restore_job := pending_restore_job a;
     game_currently_running := game_currently_running a; _closing := _closing a;
     root := root a; disk := disk a; fs_calls := fs_calls a;
     log_widget := log_widget a; dialogs := dialogs a;
     notifications := (notifications a ++ [(title, message)])%list;
     stopped_threads := stopped_threads a |}.

(** [_get_restore_delay_seconds]: the Spinbox value clamped to [0, 120],
    written back when the clamp changed it; 8 when the variable cannot be
    read. *)
Definition clamp_delay (value : Z) : Z := Z.max 0 (Z.min 120 value).

Definition _get_restore_delay_seconds (a : DeltaForceConfigApp) : Z * DeltaForceConfigApp :=
  match restore_delay_var a with
  | None => (DEFAULT_RESTORE_DELAY_SECONDS, a)
  | Some raw_value =>
      let value := clamp_delay raw_value in
      if decide (value = raw_value) then (value, a)
      else (value, with_delay_var (Some value) a)
  end.

(** [if self.pending_restore_job: self.root.after_cancel(...)]. *)
Definition cancel_pending (a : DeltaForceConfigApp) : DeltaForceConfigApp :=
  match pending_restore_job a with
  | Some id => with_root (after_cancel id (root a)) a
  | None => a
  end.

Definition _on_game_started (a : DeltaForceConfigApp) : DeltaForceConfigApp :=
  let a := with_running true a in
  let '(delay_seconds, a) := _get_restore_delay_seconds a in
  let log_msg :=
    if decide (delay_seconds = 0%Z) then "游戏已启动，将立即恢复本地备份。"
    else "游戏已启动，将在 " +:+ pretty delay_seconds +:+ " 秒后恢复本地备份。" in
  let notify_msg :=
    if decide (delay_seconds = 0%Z) then "检测到游戏运行，将立即恢复本地配置。"
    else "检测到游戏运行，将在 " +:+ pretty delay_seconds +:+ " 秒后恢复本地配置。" in
  let a := log_message log_msg a in
  let a := _send_notification "🎮 游戏启动" notify_msg a in
  let a := cancel_pending a in
  let delay_ms := (Z.max 0 delay_seconds * 1000)%Z in
  let '(id, tk) := after delay_ms cmd_restore_backup_to_game (root a) in
  with_pending (Some id) (with_root tk a).

Definition _on_game_stopped (a : DeltaForceConfigApp) : DeltaForceConfigApp :=
  let a := with_running false a in
  let a := match pending_restore_job a with
           | Some _ => with_pending None (cancel_pending a)
           | None => a
           end in
  let a := log_message "游戏已退出。" a in
  _send_notification "⏹ 游戏关闭" "检测到游戏已退出。" a.

Definition _stop_monitoring (a : DeltaForceConfigApp) : DeltaForceConfigApp :=
  match monitor_thread a with
  | None => a
  | Some m =>
      let a := retire_thread m a in
      let a := match pending_restore_job a with
               | Some _ => with_pending None (cancel_pending a)
               | None => a
               end in
      let a := with_running false a in
      log_message "已停止监控。" a
  end.

Definition _handle_monitor_error (message : string) (a : DeltaForceConfigApp)
  : DeltaForceConfigApp :=
  let a := log_message message a in
  let a := messagebox "监控异常" message a in
  _stop_monitoring a.

Definition exists_on (d : filesystem) (p : string) : bool :=
  match d !! p with
  | Some _ => true
  | None => false
  end.

Definition _restore_backup_to_game (io : restore_io) (a : DeltaForceConfigApp)
  : DeltaForceConfigApp :=
  let a := with_pending None a in
  if negb (game_currently_running a) then
    log_message "游戏已停止，跳过恢复操作。" a
  else
    match selected_config_path a with
    | None => log_message "未找到游戏配置文件，无法恢复。" a
    | Some target =>
        if negb (exists_on (disk a) target) then
          log_message "未找到游戏配置文件，无法恢复。" a
        else if negb (exists_on (disk a) BACKUP_FILE) then
          log_message "备份文件缺失，无法恢复。" a
        else
          match restore_files io BACKUP_FILE target (disk a) with
          | (d, calls, Raise exc) =>
              let a := with_disk d calls a in
              let a := log_message ("恢复失败: " +:+ exn_str exc) a in
              messagebox "恢复失败" ("无法写入配置: " +:+ exn_str exc) a
          | (d, calls, Ok _) =>
              let a := with_disk d calls a in
              let a := log_message "已将备份配置恢复到游戏目录并设置为只读。" a in
              _send_notification "✅ 配置已恢复" "备份已覆盖游戏配置并设置为只读。" a
          end
    end.

(** [_persist_settings] as far as the application object is concerned: the
    snapshot reads the delay through [_get_restore_delay_seconds].  The
    file settings.json that [_save_settings] then writes is not one of the
    files of [disk], which holds the configurations, presets and the
    backup. *)
Definition _persist_settings (a : DeltaForceConfigApp) : DeltaForceConfigApp :=
  snd (_get_restore_delay_seconds a).

(** [_start_monitoring]; [game_exe] is the answer of [find_game_executable]. *)
Definition _start_monitoring (game_exe : option string) (a : DeltaForceConfigApp)
  : DeltaForceConfigApp :=
  let alive := match monitor_thread a with
               | Some m => is_alive m
               | None => false
               end in
  if alive then messagebox "提示" "监控已在运行中。" a
  else
    match selected_config_path a with
    | None => messagebox "提示" "请先完成步骤 1 并选择配置。" a
    | Some _ =>
        if negb (exists_on (disk a) BACKUP_FILE) then
          messagebox "提示" "未找到备份文件，请先执行备份。" a
        else
          match game_exe with
          | None =>
              let a := messagebox "错误" "未能自动找到游戏主程序，请检查路径。" a in
              log_message "未找到游戏可执行文件，无法启动监控。" a
          | Some exe =>
              let a := with_monitor (Some started_thread) a in
              let a := log_message ("开始监控游戏: " +:+ exe) a in
              _persist_settings a
          end
    end.

Definition on_close (a : DeltaForceConfigApp) : DeltaForceConfigApp :=
  if _closing a then a
  else
    let a := with_closing true a in
    let a := _persist_settings a in
    let a := _stop_monitoring a in
    with_root (destroy (root a)) a.

(** The thread-safe wrappers: every monitor callback becomes
    [self.root.after(0, ...)]. *)
Definition marshal (cb : callback) : command :=
  match cb with
  | on_log msg => cmd_log_message msg
  | on_game_started => cmd_on_game_started
  | on_game_stopped => cmd_on_game_stopped
  | on_error msg => cmd_handle_monitor_error msg
  end.

Definition post (cb : callback) (a : DeltaForceConfigApp) : DeltaForceConfigApp :=
  with_root (snd (after 0 (marshal cb) (root a))) a.

(** The monitor thread held by the application runs one pass of its loop. *)
Definition monitor_pass (probe : result bool) (a : DeltaForceConfigApp)
  : DeltaForceConfigApp :=
  match monitor_thread a with
  | None => a
  | Some m =>
      let '(m', cbs) := iteration probe m in
      fold_left (λ acc cb, post cb acc) cbs (with_monitor (Some m') a)
  end.

Definition run_command (c : command) (io : restore_io) (a : DeltaForceConfigApp)
  : DeltaForceConfigApp :=
  match c with
  | cmd_log_message msg => log_message msg a
  | cmd_on_game_started => _on_game_started a
  | cmd_on_game_stopped => _on_game_stopped a
  | cmd_handle_monitor_error msg => _handle_monitor_error msg a
  | cmd_restore_backup_to_game => _restore_backup_to_game io a
  | cmd_show_sponsor_popup => a      (* the popup touches none of these fields *)
  end.

(** Tk runs the timer [id]: it leaves the queue, then its command runs. *)
Definition fire (id : nat) (io : restore_io) (a : DeltaForceConfigApp)
  : DeltaForceConfigApp :=
  match find_timer id (root a) with
  | None => a
  | Some t => run_command (cmd t) io (with_root (after_cancel id (root a)) a)
  end.

(** What can happen to a running application. *)
Inductive action : Type :=
| click_start (game_exe : option string)   (* "开始检测" *)
| click_stop                               (* "停止检测" *)
| thread_pass (probe : result bool)        (* the monitor thread polls once *)
| timer_fires (id : nat) (io : restore_io) (* mainloop runs a scheduled callback *)
| window_closed                            (* WM_DELETE_WINDOW *)
| spinbox_edited (v : option Z)            (* the user edits the delay *)
| config_selected (p : option string)      (* step 1 picks another file *)
| disk_changed (d : filesystem).           (* steps 1 and 2, or another program *)

Definition step (act : action) (a : DeltaForceConfigApp) : DeltaForceConfigApp :=
  match act with
  | click_start exe => _start_monitoring exe a
  | click_stop => _stop_monitoring a
  | thread_pass probe => monitor_pass probe a
  | timer_fires id io => fire id io a
  | window_closed => on_close a
  | spinbox_edited v => with_delay_var v a
  | config_selected p => with_selected p a
  | disk_changed d => with_disk d [] a
  end.

Definition exec (acts : list action) (a : DeltaForceConfigApp) : DeltaForceConfigApp :=
  fold_left (λ acc act, step act acc) acts a.

(** The command an action runs on the main loop, if it is a timer. *)
Definition fired_command (act : action) (a : DeltaForceConfigApp) : option command :=
  match act with
  | timer_fires id _ => cmd <$> find_timer id (root a)
  | _ => None
  end.

(** The commands run by the timers of an execution, in order. *)
Fixpoint fired_commands (acts : list action) (a : DeltaForceConfigApp) : list command :=
  match acts with
  | [] => []
  | act :: rest =>
      match fired_command act a with
      | Some c => c :: fired_commands rest (step act a)
      | None => fired_commands rest (step act a)
      end
  end.

(** The object built by [__init__]: nothing pending, no monitor, and the
    sponsor popup scheduled with [after(300, ...)]. *)
Definition initial (config : option string) (delay : Z) (d : filesystem)
  : DeltaForceConfigApp :=
  {| selected_config_path := config;
     restore_delay_var := Some delay;
     monitor_thread := None;
     pending_restore_job := None;
     game_currently_running := false;
     _closing := false;
     root := {| timers := [{| job := 0; delay_ms := 300; cmd := cmd_show_sponsor_popup |}];
                next_job := 1 |};
     disk := d;
     fs_calls := [];
     log_widget := ["欢迎使用配置助手，请按步骤依次操作。"];
     dialogs := [];
     notifications := [];
     stopped_threads := [] |}.

Inductive reachable : DeltaForceConfigApp -> Prop :=
| reachable_initial config delay d : reachable (initial config delay d)
| reachable_step act a : reachable a -> reachable (step act a).

(** *** Steps 1 and 2: backup and presets *)

(** What the operating system does during a backup or a preset copy. *)
Record copy_io : Type := {
  mkdir_fails : bool;           (* [BACKUP_DIR.mkdir] raises, outside any [try] *)
  chmod_refused : bool;         (* the chmod of [_ensure_writable] raises *)
  copy_ends : copy_outcome
}.

Definition copy_goes_through : copy_io :=
  {| mkdir_fails := false; chmod_refused := false; copy_ends := copy_completes |}.

(** [_backup_selected_config].  An exception of [mkdir] leaves the handler
    before anything else is done. *)
Definition _backup_selected_config (io : copy_io) (a : DeltaForceConfigApp)
  : DeltaForceConfigApp :=
  match selected_config_path a with
  | None => messagebox "提示" "请先选择要备份的配置路径。" a
  | Some src =>
      if negb (exists_on (disk a) src) then
        messagebox "错误" "选定的配置文件不存在，可能已被移动。" a
      else if mkdir_fails io then a
      else
        let '(d1, c1) := _ensure_writable (chmod_refused io) BACKUP_FILE (disk a) in
        match copy2 (copy_ends io) src BACKUP_FILE d1 with
        | (d2, Raise exc) =>
            let a := with_disk d2 (c1 ++ [call_copy2 src BACKUP_FILE])%list a in
            let a := messagebox "备份失败" ("无法备份配置: " +:+ exn_str exc) a in
            log_message ("备份失败: " +:+ exn_str exc) a
        | (d2, Ok _) =>
            let a := with_disk d2 (c1 ++ [call_copy2 src BACKUP_FILE])%list a in
            let a := messagebox "备份完成" ("已保存备份到 " +:+ BACKUP_FILE) a in
            log_message ("已备份配置到 " +:+ BACKUP_FILE) a
        end
  end.

(** An entry of [template_paths]: [ini/v5/<name>/Engine.ini]. *)
Record template : Type := {
  preset_name : string;     (* [template_engine.parent.name] *)
  engine_file : string
}.

(** [_apply_template]; [curselection] is the selected row of the preset
    list, if any.  A row outside [template_paths] raises IndexError
    outside the [try], which leaves the handler. *)
Definition _apply_template (template_paths : list template) (curselection : option nat)
           (io : copy_io) (a : DeltaForceConfigApp) : DeltaForceConfigApp :=
  match selected_config_path a with
  | None => messagebox "提示" "请先在步骤 1 中选择并备份配置。" a
  | Some live =>
      if negb (exists_on (disk a) BACKUP_FILE) then
        messagebox "提示" "请先完成步骤 1 的备份再继续。" a
      else
        match curselection with
        | None => messagebox "提示" "请选择一个预设。" a
        | Some index =>
            match template_paths !! index with
            | None => a
            | Some template_engine =>
                let '(d1, c1) := _ensure_writable (chmod_refused io) live (disk a) in
                match copy2 (copy_ends io) (engine_file template_engine) live d1 with
                | (d2, Raise exc) =>
                    let a := with_disk d2
                               (c1 ++ [call_copy2 (engine_file template_engine) live])%list a in
                    let a := messagebox "替换失败" ("无法覆盖配置: " +:+ exn_str exc) a in
                    log_message ("替换失败: " +:+ exn_str exc) a
                | (d2, Ok _) =>
                    let a := with_disk d2
                               (c1 ++ [call_copy2 (engine_file template_engine) live])%list a in
                    let a := messagebox "替换完成"
                               ("已使用预设 " +:+ preset_name template_engine
                                +:+ " 覆盖游戏配置。") a in
                    log_message ("已将 " +:+ preset_name template_engine
                                 +:+ " 覆盖到 " +:+ live) a
                end
            end
        end
  end.

(** The de-duplication loop of [_search_configs]: the first occurrence of
    every existing path is kept.  On Windows two [Path] objects are equal
    when they agree up to case, which [normcase] accounts for. *)
Section SearchConfigs.
Variable normcase : string -> string.

Fixpoint unique_from (seen : gset string) (d : filesystem) (matches : list string)
  : list string :=
  match matches with
  | [] => []
  | path :: rest =>
      if exists_on d path && negb (bool_decide (normcase path ∈ seen)) then
        path :: unique_from ({[normcase path]} ∪ seen) d rest
      else unique_from seen d rest
  end.

Definition unique_matches (d : filesystem) (matches : list string) : list string :=
  unique_from ∅ d matches.
End SearchConfigs.

(** The widget states set by [_update_step_states]; [true] is
    [tk.NORMAL], [false] is [tk.DISABLED]. *)
Record step_states : Type := {
  backup_button : bool;
  replace_button : bool;
  detect_button : bool;
  stop_button : bool;
  step2_status : string;
  step3_status : string
}.

Definition _update_step_states (a : DeltaForceConfigApp) : step_states :=
  let config_selected := match selected_config_path a with
                         | Some _ => true
                         | None => false
                         end in
  let has_backup := exists_on (disk a) BACKUP_FILE in
  let monitor_running := match monitor_thread a with
                         | Some m => is_alive m
                         | None => false
                         end in
  {| backup_button := config_selected;
     replace_button := config_selected && has_backup;
     detect_button := if monitor_running then false
                      else config_selected && has_backup;
     stop_button := monitor_running;
     step2_status :=
       if negb config_selected then "请先完成步骤 1 的备份。"
       else if negb has_backup then "请先点击“备份”以保存原始配置。"
       else "可选择预设覆盖游戏配置。";
     step3_status :=
       if negb config_selected then "等待步骤 1 完成。"
       else if negb has_backup then "备份完成后即可启动监控。"
       else "准备就绪，可随时启动监控。" |}.

End App.

(** ** main.py: the anti-aliasing patch of GameUserSettings.ini *)

Module AntiAliasing.

(** A Python [str]: its Unicode code points. *)
Abbreviation text := (list N).

(** An ASCII literal of the source as a [str]. *)
Definition lit (s : string) : text :=
  map Ascii.N_of_ascii (list_ascii_of_string s).

Definition text_eqb (a b : text) : bool :=
  if decide (a = b) then true else false.

Fixpoint startswith (p s : text) : bool :=
  match p, s with
  | [], _ => true
  | c :: p', d :: s' => if decide (c = d) then startswith p' s' else false
  | _ :: _, [] => false
  end.

Definition endswith (p s : text) : bool := startswith (rev p) (rev s).

(** [needle in hay]. *)
Fixpoint contains (needle hay : text) : bool :=
  if startswith needle hay then true
  else match hay with
       | [] => false
       | _ :: rest => contains needle rest
       end.

(** The characters at which [str.splitlines] breaks a line. *)
Definition is_line_boundary (c : N) : bool :=
  if decide (c ∈ [10; 11; 12; 13; 28; 29; 30; 133; 8232; 8233]%N) then true else false.

(** [str.splitlines()]: "\r\n" counts as one boundary and a trailing
    boundary opens no empty last line; [cur] is the current line reversed. *)
Fixpoint splitlines_from (cur s : text) : list text :=
  match s with
  | [] => match cur with
          | [] => []
          | _ => [rev cur]
          end
  | c :: rest =>
      if decide (c = 13%N) then
        match rest with
        | d :: rest' =>
            if decide (d = 10%N) then rev cur :: splitlines_from [] rest'
            else rev cur :: splitlines_from [] rest
        | [] => rev cur :: splitlines_from [] rest
        end
      else if is_line_boundary c then rev cur :: splitlines_from [] rest
      else splitlines_from (c :: cur) rest
  end.

Definition splitlines (s : text) : list text := splitlines_from [] s.

(** [str.isspace] of one character. *)
Definition isspace (c : N) : bool :=
  ((9 <=? c) && (c <=? 13) || (28 <=? c) && (c <=? 32)
   || (c =? 133) || (c =? 160) || (c =? 5760)
   || (8192 <=? c) && (c <=? 8202)
   || (c =? 8232) || (c =? 8233) || (c =? 8239) || (c =? 8287)
   || (c =? 12288))%N.

Fixpoint lstrip (s : text) : text :=
  match s with
  | c :: rest => if isspace c then lstrip rest else s
  | [] => []
  end.

Definition strip (s : text) : text := rev (lstrip (rev (lstrip s))).

(** ["\n".join(lines)]. *)
Fixpoint join_lines (lines : list text) : text :=
  match lines with
  | [] => []
  | [l] => l
  | l :: rest => (l ++ 10%N :: join_lines rest)%list
  end.

Definition target : text := lit "sg.AntiAliasingQuality=0".
Definition header_token : text := lit "[scalabilitygroups]".

Definition is_header (stripped : text) : bool :=
  startswith (lit "[") stripped && endswith (lit "]") stripped.

(** [bool(line.strip())]. *)
Definition nonblank (line : text) : bool :=
  match strip line with
  | [] => false
  | _ => true
  end.

(** *** The configuration file and the faults of reading and writing it *)

Record ini_file : Type := {
  decoded : text;         (* what [read_text(errors="ignore")] returns *)
  valid_utf8 : bool       (* whether the strict decoder accepts the bytes *)
}.

Abbreviation filesystem := (gmap string ini_file).

Inductive write_outcome : Type :=
| write_completes
| write_open_fails (msg : string)                    (* the file is not opened *)
| write_fails_after_open (msg : string) (kept : nat). (* opened with mode 'w', so truncated; [kept] characters written *)

Record file_io : Type := {
  strict_read_error : option string;    (* OSError of the first [read_text] *)
  lenient_read_error : option string;   (* OSError of the [errors="ignore"] retry *)
  write_result : write_outcome
}.

Definition reliable : file_io :=
  {| strict_read_error := None; lenient_read_error := None;
     write_result := write_completes |}.

(** [config_file.read_text(encoding="utf-8")]. *)
Definition read_text (io : file_io) (f : ini_file) : result text :=
  match strict_read_error io with
  | Some msg => Raise (OSError msg)
  | None => if valid_utf8 f then Ok (decoded f) else Raise UnicodeDecodeError
  end.

(** [config_file.read_text(encoding="utf-8", errors="ignore")]. *)
Definition read_text_ignore (io : file_io) (f : ini_file) : result text :=
  match lenient_read_error io with
  | Some msg => Raise (OSError msg)
  | None => Ok (decoded f)
  end.

(** The [try]/[except] ladder that opens both operations: the content, or
    the message returned with [False]. *)
Definition read_content (io : file_io) (f : ini_file) : string + text :=
  match read_text io f with
  | Ok c => inr c
  | Raise UnicodeDecodeError =>
      match read_text_ignore io f with
      | Ok c => inr c
      | Raise exc => inl ("读取配置文件失败: " +:+ exn_str exc)
      end
  | Raise exc => inl ("读取配置文件失败: " +:+ exn_str exc)
  end.

(** [config_file.write_text(data, encoding="utf-8")]. *)
Definition write_text (io : file_io) (path : string) (data : text)
           (fs : filesystem) : filesystem * result unit :=
  match write_result io with
  | write_completes =>
      (<[path := {| decoded := data; valid_utf8 := true |}]> fs, Ok tt)
  | write_open_fails msg => (fs, Raise (OSError msg))
  | write_fails_after_open msg kept =>
      (<[path := {| decoded := take kept data; valid_utf8 := true |}]> fs,
       Raise (OSError msg))
  end.

Definition ensure_trailing_newline (s : text) : text :=
  if endswith [10%N] s then s else (s ++ [10%N])%list.

Section WithLower.
(** [str.lower], a function of the Unicode database. *)
Variable lower : text -> text.

(** *** [apply_anti_aliasing_setting] *)

(** How the [for idx, line in enumerate(lines)] loop ends. *)
Inductive scan_end : Type :=
| scan_already_set                         (* return "...已存在...", False *)
| scan_replace (idx : nat)                 (* lines[idx] = ...; break *)
| scan_exhausted (section_found : bool) (insertion_index : option nat).

Fixpoint scan (lines : list text) (idx : nat) (in_section section_found : bool)
         (insertion_index : option nat) : scan_end :=
  match lines with
  | [] => scan_exhausted section_found insertion_index
  | line :: rest =>
      let stripped := strip line in
      if is_header stripped then
        let insertion_index :=
          match insertion_index with
          | None => if in_section then Some idx else None
          | Some i => Some i
          end in
        let in_section := text_eqb (lower stripped) header_token in
        scan rest (S idx) in_section (section_found || in_section) insertion_index
      else if in_section && startswith (lit "sg.antialiasingquality") (lower stripped) then
        if text_eqb stripped target then scan_already_set else scan_replace idx
      else scan rest (S idx) in_section section_found insertion_index
  end.

(** [lines.insert(i, x)]. *)
Definition list_insert_at (i : nat) (x : text) (lines : list text) : list text :=
  (take i lines ++ x :: drop i lines)%list.

(** The edited lines and the message, or the message of an early return. *)
Definition patched_lines (lines : list text) : string + (list text * string) :=
  match scan lines 0 false false None with
  | scan_already_set => inl "抗锯齿设置已存在，无需修改。"
  | scan_replace idx =>
      inr (<[idx := target]> lines, "已将现有抗锯齿设置更新为 0。")
  | scan_exhausted true None =>
      inr ((lines ++ [target])%list, "已在 [ScalabilityGroups] 部分添加抗锯齿设置。")
  | scan_exhausted true (Some i) =>
      inr (list_insert_at i target lines, "已在 [ScalabilityGroups] 部分添加抗锯齿设置。")
  | scan_exhausted false _ =>
      let lines :=
        match last lines with
        | Some l => if nonblank l then (lines ++ [[]])%list else lines
        | None => lines
        end in
      inr ((lines ++ [lit "[ScalabilityGroups]"; target])%list,
           "已添加新的 [ScalabilityGroups] 部分并写入抗锯齿设置。")
  end.

Definition apply_anti_aliasing_setting (io : file_io) (config_file : string)
           (fs : filesystem) : filesystem * (string * bool) :=
  match fs !! config_file with
  | None => (fs, ("配置文件不存在。", false))
  | Some f =>
      match read_content io f with
      | inl message => (fs, (message, false))
      | inr content =>
          if contains target content then
            (fs, ("抗锯齿设置已存在，无需修改。", false))
          else
            match patched_lines (splitlines content) with
            | inl message => (fs, (message, false))
            | inr (lines, message) =>
                let new_content := ensure_trailing_newline (join_lines lines) in
                match write_text io config_file new_content fs with
                | (fs', Raise exc) =>
                    (fs', ("写入配置文件失败: " +:+ exn_str exc, false))
                | (fs', Ok _) => (fs', (message, true))
                end
            end
      end
  end.

(** *** [_strip_anti_aliasing_setting] and [remove_anti_aliasing_setting] *)

(** Index of the first line equal to the section header. *)
Fixpoint find_header (lines : list text) (idx : nat) : option nat :=
  match lines with
  | [] => None
  | line :: rest =>
      if text_eqb (lower (strip line)) header_token then Some idx
      else find_header rest (S idx)
  end.

(** Index of the first header line at or after [idx]; [len(lines)] if none. *)
Fixpoint find_section_end (lines : list text) (idx : nat) : nat :=
  match lines with
  | [] => idx
  | line :: rest =>
      if is_header (strip line) then idx else find_section_end rest (S idx)
  end.

Definition not_target (line : text) : bool := negb (text_eqb (strip line) target).

Fixpoint drop_blank (lines : list text) : list text :=
  match lines with
  | l :: rest => if nonblank l then lines else drop_blank rest
  | [] => []
  end.

Definition _strip_anti_aliasing_setting (content : text) : text * bool :=
  let lines := splitlines content in
  let whole_file :=
    let trimmed_lines := List.filter not_target lines in
    (join_lines trimmed_lines,
     negb (Nat.eqb (length trimmed_lines) (length lines))) in
  match find_header lines 0 with
  | None => whole_file
  | Some start_idx =>
      let end_idx := find_section_end (drop (S start_idx) lines) (S start_idx) in
      let section := take (end_idx - S start_idx) (drop (S start_idx) lines) in
      let filtered_section := List.filter not_target section in
      if negb (Nat.eqb (length filtered_section) (length section)) then
        (* lines[start_idx + 1 : end_idx] = filtered_section *)
        let lines := (take (S start_idx) lines ++ filtered_section
                      ++ drop end_idx lines)%list in
        if existsb nonblank filtered_section then (join_lines lines, true)
        else
          (* del lines[start_idx:end_idx], with the old end_idx *)
          let before := take start_idx lines in
          let behind := drop end_idx lines in
          (* the two while loops delete the blank lines around the gap *)
          let behind := drop_blank behind in
          let before := rev (drop_blank (rev before)) in
          (join_lines (before ++ behind)%list, true)
      else whole_file
  end.

Definition remove_anti_aliasing_setting (io : file_io) (config_file : string)
           (fs : filesystem) : filesystem * (string * bool) :=
  match fs !! config_file with
  | None => (fs, ("配置文件不存在。", false))
  | Some f =>
      match read_content io f with
      | inl message => (fs, (message, false))
      | inr content =>
          let '(updated_content, changed) := _strip_anti_aliasing_setting content in
          if negb changed then (fs, ("未检测到可删除的抗锯齿设置。", false))
          else
            let updated_content :=
              match updated_content with
              | [] => []
              | _ => ensure_trailing_newline updated_content
              end in
            match write_text io config_file updated_content fs with
            | (fs', Raise exc) =>
                (fs', ("写入配置文件失败: " +:+ exn_str exc, false))
            | (fs', Ok _) => (fs', ("已移除抗锯齿设置，还原文件。", true))
            end
      end
  end.

End WithLower.

(** [str.lower] restricted to ASCII letters, for running the functions. *)
Definition ascii_lower (s : text) : text :=
  map (λ c, if (65 <=? c)%N && (c <=? 90)%N then (c + 32)%N else c) s.

End AntiAliasing.

(** ** app.py: the search-path settings *)

Module SearchPaths.
Import AntiAliasing.

Definition semicolon : N := 59.

(** [s.split(sep)] for a one-character separator; [cur] is the current
    piece reversed. *)
Fixpoint split_from (sep : N) (cur s : text) : list text :=
  match s with
  | [] => [rev cur]
  | c :: rest =>
      if decide (c = sep) then rev cur :: split_from sep [] rest
      else split_from sep (c :: cur) rest
  end.

Definition split (sep : N) (s : text) : list text := split_from sep [] s.

(** [sep.join(items)]. *)
Fixpoint join_with (sep : N) (items : list text) : text :=
  match items with
  | [] => []
  | [x] => x
  | x :: rest => (x ++ sep :: join_with sep rest)%list
  end.

(** [_parse_search_paths]:
    [[part.strip() for part in raw_value.split(";") if part.strip()]]. *)
Definition _parse_search_paths (raw_value : text) : list text :=
  map strip (List.filter nonblank (split semicolon raw_value)).

(** What [_apply_loaded_settings] puts into the search entry for a saved
    list: [";".join(str(item) for item in last_search if str(item).strip())]. *)
Definition loaded_search_text (last_search : list text) : text :=
  join_with semicolon (List.filter nonblank last_search).

(** The search entry after [_apply_loaded_settings]: it keeps its initial
    text unless the saved value is a list that is not empty. *)
Definition search_var_after_load (initial : text) (last_search : list text) : text :=
  match last_search with
  | [] => initial
  | _ :: _ => loaded_search_text last_search
  end.

End SearchPaths.

(** ** main.py: [DeltaForceAssistant] *)

Module Assistant.
Import AntiAliasing.

Record DeltaForceAssistant : Type := {
  selected_file : option string;
  step1_completed : bool;
  already_written_prompted : gset string;
  original_contents : gmap string text;
  setting_status_var : string;
  write_button : bool;       (* [true] is tk.NORMAL *)
  delete_button : bool;
  detect_button : bool;
  log_lines : list string;
  boxes : list (string * string);   (* messagebox title and text *)
  files : filesystem
}.

Definition set_files (fs : filesystem) (s : DeltaForceAssistant) : DeltaForceAssistant :=
  {| selected_file := selected_file s; step1_completed := step1_completed s;
     already_written_prompted := already_written_prompted s;
     original_contents := original_contents s;
     setting_status_var := setting_status_var s;
     write_button := write_button s; delete_button := delete_button s;
     detect_button := detect_button s; log_lines := log_lines s;
     boxes := boxes s; files := fs |}.

Definition set_originals (o : gmap string text) (s : DeltaForceAssistant)
  : DeltaForceAssistant :=
  {| selected_file := selected_file s; step1_completed := step1_completed s;
     already_written_prompted := already_written_prompted s;
     original_contents := o;
     setting_status_var := setting_status_var s;
     write_button := write_button s; delete_button := delete_button s;
     detect_button := detect_button s; log_lines := log_lines s;
     boxes := boxes s; files := files s |}.

Definition set_prompted (g : gset string) (s : DeltaForceAssistant)
  : DeltaForceAssistant :=
  {| selected_file := selected_file s; step1_completed := step1_completed s;
     already_written_prompted := g;
     original_contents := original_contents s;
     setting_status_var := setting_status_var s;
     write_button := write_button s; delete_button := delete_button s;
     detect_button := detect_button s; log_lines := log_lines s;
     boxes := boxes s; files := files s |}.

Definition set_status (status : string) (s : DeltaForceAssistant)
  : DeltaForceAssistant :=
  {| selected_file := selected_file s; step1_completed := step1_completed s;
     already_written_prompted := already_written_prompted s;
     original_contents := original_contents s;
     setting_status_var := status;
     write_button := write_button s; delete_button := delete_button s;
     detect_button := detect_button s; log_lines := log_lines s;
     boxes := boxes s; files := files s |}.

Definition set_buttons (w d t : bool) (s : DeltaForceAssistant) : DeltaForceAssistant :=
  {| selected_file := selected_file s; step1_completed := step1_completed s;
     already_written_prompted := already_written_prompted s;
     original_contents := original_contents s;
     setting_status_var := setting_status_var s;
     write_button := w; delete_button := d; detect_button := t;
     log_lines := log_lines s; boxes := boxes s; files := files s |}.

(** [self.log(message)]; [now] is the clock reading "%H:%M:%S". *)
Definition log (now message : string) (s : DeltaForceAssistant) : DeltaForceAssistant :=
  {| selected_file := selected_file s; step1_completed := step1_completed s;
     already_written_prompted := already_written_prompted s;
     original_contents := original_contents s;
     setting_status_var := setting_status_var s;
     write_button := write_button s; delete_button := delete_button s;
     detect_button := detect_button s;
     log_lines := (log_lines s ++ ["[" +:+ now +:+ "] " +:+ message])%list;
     boxes := boxes s; files := files s |}.

Definition messagebox (title message : string) (s : DeltaForceAssistant)
  : DeltaForceAssistant :=
  {| selected_file := selected_file s; step1_completed := step1_completed s;
     already_written_prompted := already_written_prompted s;
     original_contents := original_contents s;
     setting_status_var := setting_status_var s;
     write_button := write_button s; delete_button := delete_button s;
     detect_button := detect_button s; log_lines := log_lines s;
     boxes := (boxes s ++ [(title, message)])%list; files := files s |}.

(** [read_text] with the [errors="ignore"] retry, of a path. *)
Definition read_file (io : file_io) (path : string) (fs : filesystem) : result text :=
  match fs !! path with
  | None => Raise (OSError ("No such file or directory: " +:+ path))
  | Some f =>
      match read_text io f with
      | Raise UnicodeDecodeError => read_text_ignore io f
      | r => r
      end
  end.

Definition WRITTEN : string := "已写入抗锯齿设置".

Definition status_of (content : text) : string :=
  if contains target content then WRITTEN
  else if contains (lit "sg.AntiAliasingQuality") content then "检测到不同的抗锯齿值"
  else if contains (lit "[ScalabilityGroups]") content then "缺少抗锯齿设置"
  else "缺少 ScalabilityGroups 部分".

Definition describe_setting_status (now : string) (io : file_io) (config_file : string)
           (s : DeltaForceAssistant) : string * DeltaForceAssistant :=
  match read_file io config_file (files s) with
  | Raise exc =>
      ("无法读取文件",
       log now ("读取 " +:+ config_file +:+ " 失败: " +:+ exn_str exc) s)
  | Ok content => (status_of content, s)
  end.

Definition update_action_buttons (status : string) (s : DeltaForceAssistant)
  : DeltaForceAssistant :=
  if negb (step1_completed s)
     || match selected_file s with Some _ => false | None => true end
  then set_buttons false false true s
  else if String.prefix "无法" status then set_buttons false false true s
  else if decide (status = WRITTEN) then set_buttons false true false s
  else set_buttons true false true s.

(** The common tail of the handlers: re-read the status and refresh. *)
Definition refresh_status (now : string) (io : file_io) (config_file : string)
           (s : DeltaForceAssistant) : DeltaForceAssistant :=
  let '(status, s) := describe_setting_status now io config_file s in
  update_action_buttons status (set_status status s).

Section WithLower.
Variable lower : text -> text.

(** [on_write]; [confirm] is the answer to askyesno, the four [file_io]
    are the faults of the four file accesses in their order. *)
Definition on_write (now : string) (confirm : bool)
           (io_status io_read io_apply io_after : file_io)
           (s : DeltaForceAssistant) : DeltaForceAssistant :=
  match selected_file s with
  | None => messagebox "提示" "请选择配置文件。" s
  | Some path =>
      let '(current_status, s) := describe_setting_status now io_status path s in
      if decide (current_status = WRITTEN) then
        let s := messagebox "提示" "当前配置已写入目标设置，无需重复操作。" s in
        let s := update_action_buttons current_status s in
        set_prompted ({[path]} ∪ already_written_prompted s) s
      else if negb confirm then s
      else
        match read_file io_read path (files s) with
        | Raise exc =>
            let s := messagebox "写入失败" ("读取配置文件失败: " +:+ exn_str exc) s in
            log now ("读取 " +:+ path +:+ " 失败: " +:+ exn_str exc) s
        | Ok original_content =>
            let '(fs, (message, changed)) :=
              apply_anti_aliasing_setting lower io_apply path (files s) in
            let s := set_files fs s in
            let s :=
              if changed then
                let s := messagebox "写入完成" message s in
                match original_contents s !! path with
                | Some _ => s
                | None => set_originals (<[path := original_content]> (original_contents s)) s
                end
              else messagebox "写入结果" message s in
            let s := log now message s in
            refresh_status now io_after path s
        end
  end.

(** [on_delete_setting]. *)
Definition on_delete_setting (now : string) (confirm : bool)
           (io_write io_remove io_after : file_io)
           (s : DeltaForceAssistant) : DeltaForceAssistant :=
  match selected_file s with
  | None => messagebox "提示" "请选择配置文件。" s
  | Some path =>
      if negb confirm then s
      else
        match original_contents s !! path with
        | Some original_content =>
            match write_text io_write path original_content (files s) with
            | (fs, Raise exc) =>
                let s := set_files fs s in
                let s := messagebox "删除失败" ("写入配置文件失败: " +:+ exn_str exc) s in
                log now ("恢复原始内容失败: " +:+ exn_str exc) s
            | (fs, Ok _) =>
                let s := set_files fs s in
                let s := log now "已恢复原始配置文件内容。" s in
                let s := messagebox "删除完成" "已恢复原始配置文件内容。" s in
                let s := set_originals (delete path (original_contents s)) s in
                let s := set_prompted (already_written_prompted s ∖ {[path]}) s in
                refresh_status now io_after path s
            end
        | None =>
            let '(fs, (message, changed)) :=
              remove_anti_aliasing_setting lower io_remove path (files s) in
            let s := set_files fs s in
            let s :=
              if changed then
                set_prompted (already_written_prompted s ∖ {[path]})
                  (messagebox "删除完成" message s)
              else messagebox "删除结果" message s in
            let s := log now message s in
            if changed then
              refresh_status now io_after path
                (set_originals (delete path (original_contents s)) s)
            else refresh_status now io_after path s
        end
  end.

End WithLower.

End Assistant.

(** ** chazhao.py: locating GameUserSettings.ini *)

Module Chazhao.

(** [TARGET_SUFFIX.parts]. *)
Definition TARGET_SUFFIX : list string :=
  ["DeltaForce"; "Saved"; "Config"; "WindowsClient"; "GameUserSettings.ini"].

(** A path yielded by [root.rglob("GameUserSettings.ini")]. *)
Record candidate : Type := {
  parts : list string;
  is_file : bool
}.

Record root_dir : Type := {
  root_exists : bool;
  rglob : list candidate
}.

(** [len(candidate_parts) >= len(target_parts)] and
    [candidate_parts[-len(target_parts):] == target_parts]. *)
Definition ends_with_target (candidate_parts : list string) : bool :=
  (length TARGET_SUFFIX <=? length candidate_parts)%nat
  && bool_decide (drop (length candidate_parts - length TARGET_SUFFIX) candidate_parts
                  = TARGET_SUFFIX).

Definition matches_of (root : root_dir) : list (list string) :=
  if root_exists root then
    map parts (List.filter (λ c, is_file c && ends_with_target (parts c)) (rglob root))
  else [].

Definition find_game_configs (root_dirs : list root_dir) : list (list string) :=
  concat (map matches_of root_dirs).

End Chazhao.

(** * Properties *)

(** ** Edge detection of the two monitors *)

Import Monitor.

(** What the specification expects on a tick whose previous probe answer
    was [prev] and whose answer is [cur]. *)
Definition expected_callbacks (prev cur : bool) : list callback :=
  match prev, cur with
  | false, true => [on_log "检测到游戏进程启动。"; on_game_started]
  | true, false => [on_log "检测到游戏进程结束。"; on_game_stopped]
  | _, _ => []
  end.

Definition expected_notifications (name : string) (prev cur : bool)
  : list Jiance.output :=
  match prev, cur with
  | false, true =>
      [Jiance.send_notification "🎮 游戏已启动" (name +:+ " 正在运行中")]
  | true, false =>
      [Jiance.send_notification "⏹️ 游戏已关闭" (name +:+ " 已停止运行")]
  | _, _ => []
  end.

(** Number of [false -> true] and of [true -> false] steps of a sequence
    of probe answers that starts after [prev]. *)
Fixpoint rising_edges (prev : bool) (probes : list bool) : nat :=
  match probes with
  | [] => 0
  | cur :: rest => (if negb prev && cur then 1 else 0) + rising_edges cur rest
  end.

Fixpoint falling_edges (prev : bool) (probes : list bool) : nat :=
  match probes with
  | [] => 0
  | cur :: rest => (if prev && negb cur then 1 else 0) + falling_edges cur rest
  end.

Definition count_callback (cb : callback) (l : list callback) : nat :=
  length (filter (λ x, x = cb) l).

Definition is_started_notification (o : Jiance.output) : bool :=
  match o with
  | Jiance.send_notification "🎮 游戏已启动" _ => true
  | _ => false
  end.

Definition is_stopped_notification (o : Jiance.output) : bool :=
  match o with
  | Jiance.send_notification "⏹️ 游戏已关闭" _ => true
  | _ => false
  end.

Definition is_error (cb : callback) : bool :=
  match cb with
  | on_error _ => true
  | _ => false
  end.

(** The scheduler invariant of the application: timer names are unique
    and below the next name, the recorded handle is an issued name, and a
    restore timer that can still fire is the recorded handle. *)
Definition timers_wf (tk : App.Tk) : Prop :=
  NoDup (App.job <$> App.timers tk)
  /\ Forall (λ t, App.job t < App.next_job tk) (App.timers tk).

Definition no_restore (tk : App.Tk) : Prop :=
  Forall (λ t, App.is_restore t = false) (App.timers tk).

Definition sched_ok (tk : App.Tk) (pending : option nat) : Prop :=
  timers_wf tk
  /\ (forall j, pending = Some j -> j < App.next_job tk)
  /\ Forall (λ t, App.is_restore t = true -> pending = Some (App.job t))
            (App.timers tk).

Definition app_ok (a : App.DeltaForceConfigApp) : Prop :=
  sched_ok (App.root a) (App.pending_restore_job a).

(** A concrete installation: a backup taken in step 1 and a live
    configuration that step 2 replaced by a preset. *)
Definition live_config : string := "C:/WeGameApps/DeltaForce/Saved/Config/Engine.ini".
Definition client_exe : string := "C:/WeGameApps/DeltaForce/DeltaForceClient.exe".

Definition demo_disk : App.filesystem :=
  {[ App.BACKUP_FILE := {| App.content := "[Core]original"; App.st_mode := 438 |};
     live_config := {| App.content := "[Core]preset"; App.st_mode := 292 |} ]}.

Definition demo_app : App.DeltaForceConfigApp :=
  App.initial (Some live_config) 8 demo_disk.

(** Monitoring is stopped and started again while the start callback of
    the first thread is still queued; both start callbacks then run. *)
Definition quick_restart : list App.action :=
  [ App.click_start (Some client_exe);
    App.thread_pass (Ok true);                 (* queues after#1, after#2 *)
    App.click_stop;
    App.click_start (Some client_exe);
    App.thread_pass (Ok true);                 (* queues after#3, after#4 *)
    App.timer_fires 1 App.no_faults;
    App.timer_fires 2 App.no_faults ].         (* schedules the restore after#5 *)

(** The monitor sees the game start and then fails; the user stops
    monitoring before the main loop has run the queued callbacks. *)
Definition late_callbacks : list App.action :=
  [ App.click_start (Some client_exe);
    App.thread_pass (Ok true);                          (* queues after#1, after#2 *)
    App.thread_pass (Raise (RuntimeError "psutil failed")); (* queues after#3 *)
    App.click_stop;
    App.timer_fires 1 App.no_faults;    (* log line *)
    App.timer_fires 2 App.no_faults;    (* _on_game_started: restore is after#4 *)
    App.timer_fires 3 App.no_faults ].  (* _handle_monitor_error: _stop_monitoring *)

(** The start callback arrives after the stop button was handled. *)
Definition start_after_stop : list App.action :=
  [ App.click_start (Some client_exe);
    App.thread_pass (Ok true);                 (* queues after#1, after#2 *)
    App.click_stop;
    App.timer_fires 1 App.no_faults;
    App.timer_fires 2 App.no_faults ].         (* restore is after#3 *)

(** The copy goes through and the chmod of [_ensure_read_only] is refused. *)
Definition read_only_refused : App.restore_io :=
  {| App.writable_chmod_refused := false; App.copy_result := App.copy_completes;
     App.read_only_chmod_refused := true |}.

(** The data is copied and [copystat] then raises. *)
Definition copystat_fails : App.restore_io :=
  {| App.writable_chmod_refused := false;
     App.copy_result := App.copy_stat_fails "Operation not permitted";
     App.read_only_chmod_refused := false |}.

(** A settings file without the tweak, one that already has it, and a
    disk on which a write fails after the file was opened. *)
Definition settings_path : string :=
  "C:/WeGameApps/DeltaForce/Saved/Config/WindowsClient/GameUserSettings.ini".

Definition plain_settings : AntiAliasing.filesystem :=
  {[ settings_path :=
       {| AntiAliasing.decoded :=
            (AntiAliasing.lit "[ScalabilityGroups]" ++ [10%N]
             ++ AntiAliasing.lit "sg.ShadowQuality=2" ++ [10%N])%list;
          AntiAliasing.valid_utf8 := true |} ]}.

Definition patched_settings : AntiAliasing.filesystem :=
  {[ settings_path :=
       {| AntiAliasing.decoded :=
            (AntiAliasing.lit "[ScalabilityGroups]" ++ [10%N]
             ++ AntiAliasing.lit "sg.ShadowQuality=2" ++ [10%N]
             ++ AntiAliasing.lit "sg.AntiAliasingQuality=0" ++ [10%N])%list;
          AntiAliasing.valid_utf8 := true |} ]}.

Definition disk_full : AntiAliasing.file_io :=
  {| AntiAliasing.strict_read_error := None;
     AntiAliasing.lenient_read_error := None;
     AntiAliasing.write_result :=
       AntiAliasing.write_fails_after_open "No space left on device" 0 |}.

(** Entries of the process table: skipped by the probe, raising through
    it, or matching the target. *)
Definition is_skipped (e : Probe.entry) : bool :=
  match e with
  | Probe.Raises NoSuchProcess | Probe.Raises AccessDenied => true
  | _ => false
  end.

Definition raises_through (e : Probe.entry) : bool :=
  match e with
  | Probe.Raises _ => negb (is_skipped e)
  | Probe.Info _ _ => false
  end.

Definition entry_matches (lower resolve : string -> string) (stem path : string)
           (e : Probe.entry) : bool :=
  match e with
  | Probe.Info name exe =>
      Probe.name_matches lower stem name || Probe.exe_matches resolve path exe
  | Probe.Raises _ => false
  end.

(** An installation with one preset under ini/v5 and no backup yet. *)
Definition balanced_preset : App.template :=
  {| App.preset_name := "balanced"; App.engine_file := "ini/v5/balanced/Engine.ini" |}.

Definition fresh_disk : App.filesystem :=
  {[ live_config := {| App.content := "[Core]original"; App.st_mode := 438 |};
     "ini/v5/balanced/Engine.ini" :=
       {| App.content := "[Core]balanced"; App.st_mode := 438 |} ]}.

Definition fresh_app : App.DeltaForceConfigApp :=
  App.initial (Some live_config) 8 fresh_disk.

(** The text that [apply_anti_aliasing_setting] passes to [write_text] for
    a file that reads as [content] ([new_content] in the source), when it
    gets that far; likewise [updated_content] of
    [remove_anti_aliasing_setting]. *)
Definition applied_content (lower : AntiAliasing.text -> AntiAliasing.text)
           (content : AntiAliasing.text) : option AntiAliasing.text :=
  if AntiAliasing.contains AntiAliasing.target content then None
  else
    match AntiAliasing.patched_lines lower (AntiAliasing.splitlines content) with
    | inr (lines, _) =>
        Some (AntiAliasing.ensure_trailing_newline (AntiAliasing.join_lines lines))
    | inl _ => None
    end.

Definition removed_content (lower : AntiAliasing.text -> AntiAliasing.text)
           (content : AntiAliasing.text) : option AntiAliasing.text :=
  match AntiAliasing._strip_anti_aliasing_setting lower content with
  | (updated_content, true) =>
      Some match updated_content with
           | [] => []
           | _ => AntiAliasing.ensure_trailing_newline updated_content
           end
  | (_, false) => None
  end.



(** A text that does not start with whitespace. *)
Definition clean_end (s : AntiAliasing.text) : Prop :=
  match s with
  | c :: _ => AntiAliasing.isspace c = false
  | [] => True
  end.

(** A thread inside its loop, and a [GameMonitor] that is watching. *)
Definition polling (last : bool) : ConfigMonitor :=
  {| _stop_event := false; last_running := last; status := Running |}.

Definition watching (name : string) (last : bool) : Jiance.GameMonitor :=
  {| Jiance.game_name := name; Jiance.is_running := last;
     Jiance.monitoring := true; Jiance.has_monitor_thread := true |}.

Lemma iteration_polling (last running : bool) :
  iteration (Ok running) (polling last)
  = (polling running, expected_callbacks last running).
Proof. destruct last, running; reflexivity. Qed.

Lemma run_from_polling (probes : list bool) : forall last,
  run_from (polling last) (Ok <$> probes)
  = (polling (fold_left (λ _ cur, cur) probes last),
     zip_with expected_callbacks (last :: probes) probes).
Proof.
  induction probes as [|cur rest IH]; intros last; [reflexivity|].
  cbn [fmap list_fmap run_from].
  rewrite iteration_polling, IH. reflexivity.
Qed.

Lemma count_started_ticks (probes : list bool) : forall last,
  count_callback on_game_started
    (concat (zip_with expected_callbacks (last :: probes) probes))
  = rising_edges last probes.
Proof.
  induction probes as [|cur rest IH]; intros last; [reflexivity|].
  change (zip_with expected_callbacks (last :: cur :: rest) (cur :: rest))
    with (expected_callbacks last cur
            :: zip_with expected_callbacks (cur :: rest) rest).
  unfold count_callback in *.
  rewrite concat_cons, filter_app, length_app, IH.
  destruct last, cur; reflexivity.
Qed.

Lemma count_stopped_ticks (probes : list bool) : forall last,
  count_callback on_game_stopped
    (concat (zip_with expected_callbacks (last :: probes) probes))
  = falling_edges last probes.
Proof.
  induction probes as [|cur rest IH]; intros last; [reflexivity|].
  change (zip_with expected_callbacks (last :: cur :: rest) (cur :: rest))
    with (expected_callbacks last cur
            :: zip_with expected_callbacks (cur :: rest) rest).
  unfold count_callback in *.
  rewrite concat_cons, filter_app, length_app, IH.
  destruct last, cur; reflexivity.
Qed.

Lemma loop_pass_watching (name : string) (last cur : bool) :
  Jiance.loop_pass cur (watching name last)
  = (watching name (if bool_decide (last = cur) then last else cur),
     expected_notifications name last cur).
Proof. destruct last, cur; reflexivity. Qed.

Lemma monitor_loop_watching (name : string) (statuses : list bool) : forall last,
  snd (Jiance.monitor_loop (watching name last) statuses)
  = zip_with (expected_notifications name) (last :: statuses) statuses.
Proof.
  induction statuses as [|cur rest IH]; intros last; [reflexivity|].
  cbn [Jiance.monitor_loop]. rewrite loop_pass_watching.
  specialize (IH (if bool_decide (last = cur) then last else cur)).
  destruct (Jiance.monitor_loop _ rest) as [g2 later]. cbn in IH |- *.
  rewrite IH. f_equal. destruct last, cur; reflexivity.
Qed.

Lemma count_started_notifications (name : string) (statuses : list bool) : forall last,
  length (filter (λ o, is_started_notification o = true)
            (concat (zip_with (expected_notifications name) (last :: statuses) statuses)))
  = rising_edges last statuses.
Proof.
  induction statuses as [|cur rest IH]; intros last; [reflexivity|].
  change (zip_with (expected_notifications name) (last :: cur :: rest) (cur :: rest))
    with (expected_notifications name last cur
            :: zip_with (expected_notifications name) (cur :: rest) rest).
  rewrite concat_cons, filter_app, length_app, IH.
  destruct last, cur; reflexivity.
Qed.

Lemma count_stopped_notifications (name : string) (statuses : list bool) : forall last,
  length (filter (λ o, is_stopped_notification o = true)
            (concat (zip_with (expected_notifications name) (last :: statuses) statuses)))
  = falling_edges last statuses.
Proof.
  induction statuses as [|cur rest IH]; intros last; [reflexivity|].
  change (zip_with (expected_notifications name) (last :: cur :: rest) (cur :: rest))
    with (expected_notifications name last cur
            :: zip_with (expected_notifications name) (cur :: rest) rest).
  rewrite concat_cons, filter_app, length_app, IH.
  destruct last, cur; reflexivity.
Qed.

(** C1. Starting from [last_running = False], for every sequence of probe
    answers fed one per tick, the callbacks of each tick are exactly those
    of the edge between the previous answer and this one: a start on
    [false -> true], a stop on [true -> false], nothing when the answer
    repeats; so the started (stopped) callbacks number the rising (falling)
    edges.  This holds for [ConfigMonitor.run] and, with notifications in
    place of callbacks, for [GameMonitor.monitor_loop]. *)
Theorem edge_detection_exact (name : string) (probes : list bool) :
  snd (run (Ok <$> probes)) = zip_with expected_callbacks (false :: probes) probes
  /\ count_callback on_game_started (run_callbacks (Ok <$> probes))
     = rising_edges false probes
  /\ count_callback on_game_stopped (run_callbacks (Ok <$> probes))
     = falling_edges false probes
  /\ snd (Jiance.monitor_loop (fst (Jiance.start_monitoring (Jiance.init name))) probes)
     = zip_with (expected_notifications name) (false :: probes) probes
  /\ length (filter (λ o, is_started_notification o = true)
       (concat (snd (Jiance.monitor_loop
                       (fst (Jiance.start_monitoring (Jiance.init name))) probes))))
     = rising_edges false probes
  /\ length (filter (λ o, is_stopped_notification o = true)
       (concat (snd (Jiance.monitor_loop
                       (fst (Jiance.start_monitoring (Jiance.init name))) probes))))
     = falling_edges false probes.
Proof.
  unfold run_callbacks, run.
  change started_thread with (polling false).
  rewrite run_from_polling. cbn [snd].
  change (fst (Jiance.start_monitoring (Jiance.init name))) with (watching name false).
  rewrite monitor_loop_watching.
  repeat split.
  - apply count_started_ticks.
  - apply count_stopped_ticks.
  - apply count_started_notifications.
  - apply count_stopped_notifications.
Qed.

(** The sequence of the specification:
    [false, true, true, false, false, true]. *)
Example edge_detection_spec_sequence :
  snd (run (Ok <$> [false; true; true; false; false; true]))
  = [ [];
      [on_log "检测到游戏进程启动。"; on_game_started];
      [];
      [on_log "检测到游戏进程结束。"; on_game_stopped];
      [];
      [on_log "检测到游戏进程启动。"; on_game_started] ].
Proof. reflexivity. Qed.

(** ** Failures while polling *)

Lemma run_from_app (l1 l2 : list (result bool)) : forall m,
  run_from m (l1 ++ l2)
  = (fst (run_from (fst (run_from m l1)) l2),
     (snd (run_from m l1) ++ snd (run_from (fst (run_from m l1)) l2))%list).
Proof.
  induction l1 as [|p l1 IH]; intros m.
  - cbn. destruct (run_from m l2); reflexivity.
  - cbn [app run_from]. destruct (iteration p m) as [m1 cbs].
    rewrite IH. destruct (run_from m1 l1) as [m2 t1]. cbn [fst snd].
    destruct (run_from m2 l2); reflexivity.
Qed.

Lemma run_from_dead (later : list (result bool)) (m : ConfigMonitor) :
  status m <> Running ->
  run_from m later = (m, replicate (length later) []).
Proof.
  intros Hdead. induction later as [|p later IH]; [reflexivity|].
  cbn [run_from]. unfold iteration.
  destruct (status m) eqn:E; [congruence| |]; rewrite IH; reflexivity.
Qed.

Lemma no_error_in_edges (probes : list bool) : forall last,
  filter (λ cb, is_error cb = true)
    (concat (zip_with expected_callbacks (last :: probes) probes)) = [].
Proof.
  induction probes as [|cur rest IH]; intros last; [reflexivity|].
  change (zip_with expected_callbacks (last :: cur :: rest) (cur :: rest))
    with (expected_callbacks last cur
            :: zip_with expected_callbacks (cur :: rest) rest).
  rewrite concat_cons, filter_app, IH.
  destruct last, cur; reflexivity.
Qed.

Lemma concat_replicate_nil {A : Type} (n : nat) :
  concat (replicate n ([] : list A)) = [].
Proof. induction n as [|n IH]; [reflexivity|]. cbn. exact IH. Qed.

(** C7, as amended.  In [ConfigMonitor.run] (app.py) a probe that raises
    anything but the per-process psutil errors, which the probe itself
    skips, ends the loop: [on_error] is called once, [run] re-raises the
    exception, and the ticks after it poll nothing. *)
Theorem config_monitor_fail_fast (before : list bool) (e : exn)
        (later : list (result bool)) :
  status (fst (run ((Ok <$> before) ++ Raise e :: later))) = Died e
  /\ snd (run ((Ok <$> before) ++ Raise e :: later))
     = (zip_with expected_callbacks (false :: before) before
        ++ [on_error ("监控线程发生异常: " +:+ exn_str e)]
        :: replicate (length later) [])%list
  /\ length (filter (λ cb, is_error cb = true)
               (run_callbacks ((Ok <$> before) ++ Raise e :: later))) = 1
  /\ (forall lower resolve stem path rest,
        Probe._is_process_running lower resolve stem path
          (Probe.Raises NoSuchProcess :: rest)
        = Probe._is_process_running lower resolve stem path rest
        /\ Probe._is_process_running lower resolve stem path
             (Probe.Raises AccessDenied :: rest)
           = Probe._is_process_running lower resolve stem path rest)
  /\ (forall lower resolve stem path msg rest,
        Probe._is_process_running lower resolve stem path
          (Probe.Raises (OSError msg) :: rest) = Raise (OSError msg)).
Proof.
  assert (Hrun : run ((Ok <$> before) ++ Raise e :: later)
                 = ({| _stop_event := false;
                       last_running := fold_left (λ _ cur, cur) before false;
                       status := Died e |},
                    (zip_with expected_callbacks (false :: before) before
                     ++ [on_error ("监控线程发生异常: " +:+ exn_str e)]
                     :: replicate (length later) [])%list)).
  { unfold run. change started_thread with (polling false).
    rewrite run_from_app, run_from_polling. cbn [fst snd run_from iteration polling status _stop_event last_running].
    rewrite run_from_dead by (cbn; congruence). reflexivity. }
  unfold run_callbacks. rewrite Hrun. cbn [fst snd status].
  repeat split.
  rewrite concat_app, filter_app, no_error_in_edges.
  cbn [concat app]. rewrite concat_replicate_nil. reflexivity.
Qed.

(** C7, the claim as stated fails for [GameMonitor] (jiance.py): a probe
    that raises is printed by [is_game_running] and answered [False]; the
    loop keeps polling and reports the start seen on the next tick. *)
Lemma game_monitor_swallows_probe_failure :
  Jiance.monitor_loop_on Probe.ascii_lower Probe.resolved
    "DeltaForceClient" "C:/WeGameApps/DeltaForceClient.exe"
    (watching "DeltaForceClient.exe" false)
    [ [Probe.Raises (RuntimeError "process table unavailable")];
      [Probe.Info (Some "DeltaForceClient.exe") None] ]
  = (watching "DeltaForceClient.exe" true,
     [ [Jiance.print "检查进程时出错: process table unavailable"];
       [Jiance.send_notification "🎮 游戏已启动" "DeltaForceClient.exe 正在运行中"] ]).
Proof. vm_compute. reflexivity. Qed.

(** ** The single pending restore *)

Import App.

Lemma Forall_filter_keep {A : Type} (P : A -> Prop) (Q : A -> Prop)
      `{forall x, Decision (Q x)} (l : list A) :
  Forall P l -> Forall P (filter Q l).
Proof.
  rewrite !Forall_forall. intros HP x Hx.
  apply list_elem_of_filter in Hx as [_ Hx]. exact (HP x Hx).
Qed.

Lemma timers_wf_cancel (id : nat) (tk : Tk) :
  timers_wf tk -> timers_wf (after_cancel id tk).
Proof.
  intros [Hnd Hlt]. split; cbn.
  - eapply sublist_NoDup; [exact Hnd|].
    apply fmap_sublist, sublist_filter.
  - apply Forall_filter_keep. exact Hlt.
Qed.

Lemma sched_ok_cancel (id : nat) (tk : Tk) (p : option nat) :
  sched_ok tk p -> sched_ok (after_cancel id tk) p.
Proof.
  intros (Hwf & Hp & Hr). repeat split.
  - apply (timers_wf_cancel id tk Hwf).
  - apply (timers_wf_cancel id tk Hwf).
  - exact Hp.
  - cbn. apply Forall_filter_keep. exact Hr.
Qed.

Lemma cancel_clears_restore (id : nat) (tk : Tk) :
  sched_ok tk (Some id) -> no_restore (after_cancel id tk).
Proof.
  intros (_ & _ & Hr). unfold no_restore. cbn.
  induction (timers tk) as [|t l IH]; [constructor|].
  inversion Hr as [|? ? Ht Hl]; subst.
  rewrite filter_cons. destruct (decide (job t ≠ id)) as [Hne|Heq].
  - constructor; [|apply IH; exact Hl].
    destruct (is_restore t) eqn:E; [|reflexivity].
    specialize (Ht eq_refl). congruence.
  - apply IH; exact Hl.
Qed.

Lemma none_no_restore (tk : Tk) : sched_ok tk None -> no_restore tk.
Proof.
  intros (_ & _ & Hr). unfold no_restore.
  eapply Forall_impl; [exact Hr|]. intros t Ht. cbn in Ht.
  destruct (is_restore t); [specialize (Ht eq_refl); discriminate|reflexivity].
Qed.

Lemma no_restore_sched_ok (tk : Tk) (p : option nat) :
  timers_wf tk -> no_restore tk -> (forall j, p = Some j -> j < next_job tk) ->
  sched_ok tk p.
Proof.
  intros Hwf Hn Hp. repeat split; try apply Hwf; [exact Hp|].
  eapply Forall_impl; [exact Hn|]. intros t Ht E. cbn in Ht. congruence.
Qed.

Lemma timers_wf_after (ms : Z) (c : command) (tk : Tk) :
  timers_wf tk -> timers_wf (snd (after ms c tk)).
Proof.
  intros [Hnd Hlt]. split; cbn.
  - rewrite fmap_app. apply NoDup_app. split; [exact Hnd|]. split.
    + intros x Hx Hx'. cbn in Hx'. apply list_elem_of_singleton in Hx'. subst x.
      apply list_elem_of_fmap in Hx as (t & Ht & Hin).
      rewrite Forall_forall in Hlt. specialize (Hlt t Hin). lia.
    + cbn. apply NoDup_singleton.
  - apply Forall_app. split.
    + eapply Forall_impl; [exact Hlt|]. cbn. intros; lia.
    + constructor; [cbn; lia|constructor].
Qed.

Lemma sched_ok_after_restore (ms : Z) (tk : Tk) :
  timers_wf tk -> no_restore tk ->
  sched_ok (snd (after ms cmd_restore_backup_to_game tk)) (Some (next_job tk)).
Proof.
  intros Hwf Hn. repeat split; try apply (timers_wf_after ms _ tk Hwf).
  - intros j [= <-]. cbn. lia.
  - cbn. apply Forall_app. split.
    + eapply Forall_impl; [exact Hn|]. intros t Ht E. cbn in Ht. congruence.
    + constructor; [intros _; reflexivity|constructor].
Qed.

Lemma sched_ok_after_other (ms : Z) (c : command) (tk : Tk) (p : option nat) :
  c <> cmd_restore_backup_to_game ->
  sched_ok tk p -> sched_ok (snd (after ms c tk)) p.
Proof.
  intros Hc (Hwf & Hp & Hr). repeat split; try apply (timers_wf_after ms c tk Hwf).
  - intros j Hj. specialize (Hp j Hj). cbn. lia.
  - cbn. apply Forall_app. split; [exact Hr|].
    constructor; [|constructor]. unfold is_restore. cbn.
    destruct (decide (c = cmd_restore_backup_to_game)); [contradiction|discriminate].
Qed.

Lemma no_restore_live (tk : Tk) : no_restore tk -> live_restore_jobs tk = [].
Proof.
  unfold no_restore, live_restore_jobs. intros H.
  induction (timers tk) as [|t l IH]; [reflexivity|].
  inversion H as [|? ? Ht Hl]; subst. rewrite filter_cons.
  destruct (decide (is_restore t = true)); [congruence|]. apply IH; exact Hl.
Qed.

Lemma live_no_restore (tk : Tk) : live_restore_jobs tk = [] -> no_restore tk.
Proof.
  unfold no_restore, live_restore_jobs. intros H.
  induction (timers tk) as [|t l IH]; [constructor|].
  rewrite filter_cons in H.
  destruct (decide (is_restore t = true)) as [E|E]; [discriminate|].
  constructor; [destruct (is_restore t); congruence|apply IH; exact H].
Qed.

Lemma cancel_pending_props (a : DeltaForceConfigApp) :
  app_ok a ->
  timers_wf (root (cancel_pending a))
  /\ no_restore (root (cancel_pending a))
  /\ next_job (root (cancel_pending a)) = next_job (root a)
  /\ pending_restore_job (cancel_pending a) = pending_restore_job a.
Proof.
  unfold app_ok, cancel_pending. intros Hok.
  destruct (pending_restore_job a) as [id|] eqn:E; cbn.
  - rewrite E. repeat split; try apply (timers_wf_cancel id _ (proj1 Hok)).
    apply cancel_clears_restore. exact Hok.
  - rewrite E. repeat split; try apply Hok. apply none_no_restore. exact Hok.
Qed.

Lemma get_delay_frame (a : DeltaForceConfigApp) :
  root (snd (_get_restore_delay_seconds a)) = root a
  /\ pending_restore_job (snd (_get_restore_delay_seconds a)) = pending_restore_job a
  /\ monitor_thread (snd (_get_restore_delay_seconds a)) = monitor_thread a
  /\ game_currently_running (snd (_get_restore_delay_seconds a))
     = game_currently_running a
  /\ disk (snd (_get_restore_delay_seconds a)) = disk a
  /\ fs_calls (snd (_get_restore_delay_seconds a)) = fs_calls a.
Proof.
  unfold _get_restore_delay_seconds.
  destruct (restore_delay_var a) as [raw|];
    [destruct (decide (clamp_delay raw = raw))|]; cbn; repeat split.
Qed.

Lemma on_game_started_sched (a : DeltaForceConfigApp) :
  exists ms,
    root (_on_game_started a)
    = snd (after ms cmd_restore_backup_to_game (root (cancel_pending a)))
    /\ pending_restore_job (_on_game_started a) = Some (next_job (root a))
    /\ game_currently_running (_on_game_started a) = true
    /\ monitor_thread (_on_game_started a) = monitor_thread a.
Proof.
  unfold _on_game_started.
  pose proof (get_delay_frame (with_running true a)) as H.
  destruct (_get_restore_delay_seconds (with_running true a)) as [d a1].
  cbn in H. destruct H as (Hr & Hp & Hm & Hg & _).
  unfold cancel_pending. cbn. rewrite Hp.
  destruct (pending_restore_job a); cbn; rewrite ?Hr, ?Hm, ?Hg;
    eexists; repeat split.
Qed.

Lemma on_game_started_ok (a : DeltaForceConfigApp) :
  app_ok a -> app_ok (_on_game_started a).
Proof.
  intros Hok. unfold app_ok.
  destruct (on_game_started_sched a) as (ms & Hr & Hp & _). rewrite Hr, Hp.
  destruct (cancel_pending_props a Hok) as (Hwf & Hn & Hj & _).
  rewrite <- Hj. apply sched_ok_after_restore; assumption.
Qed.

Lemma on_game_stopped_sched (a : DeltaForceConfigApp) :
  root (_on_game_stopped a) = root (cancel_pending a)
  /\ pending_restore_job (_on_game_stopped a) = None
  /\ game_currently_running (_on_game_stopped a) = false.
Proof.
  unfold _on_game_stopped, cancel_pending. cbn.
  destruct (pending_restore_job a) eqn:E; cbn; rewrite ?E; repeat split.
Qed.

Lemma cleared_ok (tk : Tk) : timers_wf tk -> no_restore tk -> sched_ok tk None.
Proof. intros Hwf Hn. apply no_restore_sched_ok; [assumption..|discriminate]. Qed.

Lemma on_game_stopped_ok (a : DeltaForceConfigApp) :
  app_ok a -> app_ok (_on_game_stopped a).
Proof.
  intros Hok. unfold app_ok.
  destruct (on_game_stopped_sched a) as (Hr & Hp & _). rewrite Hr, Hp.
  destruct (cancel_pending_props a Hok) as (Hwf & Hn & _).
  apply cleared_ok; assumption.
Qed.

Lemma stop_monitoring_sched (a : DeltaForceConfigApp) (m : ConfigMonitor) :
  monitor_thread a = Some m ->
  root (_stop_monitoring a) = root (cancel_pending a)
  /\ pending_restore_job (_stop_monitoring a) = None
  /\ monitor_thread (_stop_monitoring a) = None
  /\ game_currently_running (_stop_monitoring a) = false
  /\ stopped_threads (_stop_monitoring a) = (stopped_threads a ++ [stop m])%list.
Proof.
  intros Hm. unfold _stop_monitoring, cancel_pending. rewrite Hm. cbn.
  destruct (pending_restore_job a) eqn:E; cbn; rewrite ?E; repeat split.
Qed.

Lemma stop_monitoring_idle (a : DeltaForceConfigApp) :
  monitor_thread a = None -> _stop_monitoring a = a.
Proof. intros Hm. unfold _stop_monitoring. rewrite Hm. reflexivity. Qed.

Lemma stop_monitoring_ok (a : DeltaForceConfigApp) :
  app_ok a -> app_ok (_stop_monitoring a).
Proof.
  intros Hok. destruct (monitor_thread a) as [m|] eqn:Hm.
  - unfold app_ok.
    destruct (stop_monitoring_sched a m Hm) as (Hr & Hp & _). rewrite Hr, Hp.
    destruct (cancel_pending_props a Hok) as (Hwf & Hn & _).
    apply cleared_ok; assumption.
  - rewrite stop_monitoring_idle by exact Hm. exact Hok.
Qed.

Lemma persist_settings_sched (a : DeltaForceConfigApp) :
  root (_persist_settings a) = root a
  /\ pending_restore_job (_persist_settings a) = pending_restore_job a
  /\ monitor_thread (_persist_settings a) = monitor_thread a.
Proof.
  unfold _persist_settings.
  destruct (get_delay_frame a) as (Hr & Hp & Hm & _). repeat split; assumption.
Qed.

Lemma start_monitoring_sched (exe : option string) (a : DeltaForceConfigApp) :
  root (_start_monitoring exe a) = root a
  /\ pending_restore_job (_start_monitoring exe a) = pending_restore_job a.
Proof.
  unfold _start_monitoring.
  destruct (match monitor_thread a with Some m => is_alive m | None => false end);
    [split; reflexivity|].
  destruct (selected_config_path a); [|split; reflexivity].
  destruct (negb (exists_on (disk a) BACKUP_FILE)); [split; reflexivity|].
  destruct exe; [|split; reflexivity].
  destruct (persist_settings_sched
              (log_message ("开始监控游戏: " +:+ s0)
                 (with_monitor (Some started_thread) a))) as (Hr & Hp & _).
  rewrite Hr, Hp. split; reflexivity.
Qed.

Lemma post_sched (cb : callback) (a : DeltaForceConfigApp) :
  app_ok a -> app_ok (post cb a).
Proof.
  unfold app_ok, post. cbn. intros Hok.
  apply (sched_ok_after_other 0 (marshal cb) (root a)); [|exact Hok].
  destruct cb; discriminate.
Qed.

Lemma monitor_pass_ok (probe : result bool) (a : DeltaForceConfigApp) :
  app_ok a -> app_ok (monitor_pass probe a).
Proof.
  intros Hok. unfold monitor_pass.
  destruct (monitor_thread a) as [m|]; [|exact Hok].
  destruct (iteration probe m) as [m' cbs].
  assert (Hstart : app_ok (with_monitor (Some m') a)) by exact Hok.
  revert Hstart. generalize (with_monitor (Some m') a).
  induction cbs as [|cb cbs IH]; intros b Hb; [exact Hb|].
  cbn [fold_left]. apply IH, post_sched, Hb.
Qed.

Lemma find_timer_job (id : nat) (tk : Tk) (t : timer) :
  find_timer id tk = Some t -> job t = id /\ t ∈ timers tk.
Proof.
  unfold find_timer. intros H.
  apply head_Some_elem_of, list_elem_of_filter in H. exact H.
Qed.

Lemma restore_backup_sched (io : restore_io) (a : DeltaForceConfigApp) :
  root (_restore_backup_to_game io a) = root a
  /\ pending_restore_job (_restore_backup_to_game io a) = None
  /\ monitor_thread (_restore_backup_to_game io a) = monitor_thread a.
Proof.
  unfold _restore_backup_to_game. cbn.
  destruct (game_currently_running a); cbn; [|repeat split].
  destruct (selected_config_path a) as [target|]; cbn; [|repeat split].
  destruct (exists_on (disk a) target); cbn; [|repeat split].
  destruct (exists_on (disk a) BACKUP_FILE); cbn; [|repeat split].
  destruct (restore_files io BACKUP_FILE target (disk a)) as [[d calls] [u|e]];
    repeat split.
Qed.

Lemma fire_ok (id : nat) (io : restore_io) (a : DeltaForceConfigApp) :
  app_ok a -> app_ok (fire id io a).
Proof.
  intros Hok. unfold fire.
  destruct (find_timer id (root a)) as [t|] eqn:Hf; [|exact Hok].
  apply find_timer_job in Hf as [Hjob Hin].
  assert (Hcut : app_ok (with_root (after_cancel id (root a)) a))
    by (apply sched_ok_cancel; exact Hok).
  destruct (cmd t) eqn:Hc; cbn [run_command].
  - exact Hcut.
  - apply on_game_started_ok, Hcut.
  - apply on_game_stopped_ok, Hcut.
  - unfold _handle_monitor_error. apply stop_monitoring_ok. exact Hcut.
  - unfold app_ok.
    destruct (restore_backup_sched io (with_root (after_cancel id (root a)) a))
      as (Hr & Hp & _).
    rewrite Hr, Hp. cbn.
    assert (Hpend : pending_restore_job a = Some id).
    { destruct Hok as (_ & _ & Hall). rewrite Forall_forall in Hall.
      rewrite <- Hjob. apply (Hall t Hin). unfold is_restore. rewrite Hc.
      destruct (decide (cmd_restore_backup_to_game = cmd_restore_backup_to_game));
        [reflexivity|contradiction]. }
    unfold app_ok in Hok. rewrite Hpend in Hok.
    apply cleared_ok; [apply timers_wf_cancel, Hok|apply cancel_clears_restore, Hok].
  - exact Hcut.
Qed.

Lemma on_close_ok (a : DeltaForceConfigApp) : app_ok a -> app_ok (on_close a).
Proof.
  intros Hok. unfold on_close. destruct (_closing a); [exact Hok|].
  unfold app_ok. cbn. repeat split; cbn; try constructor.
  intros j Hj.
  assert (H1 : app_ok (_persist_settings (with_closing true a))).
  { unfold app_ok.
    destruct (persist_settings_sched (with_closing true a)) as (Hr & Hp & _).
    rewrite Hr, Hp. exact Hok. }
  apply stop_monitoring_ok in H1. destruct H1 as (_ & Hlt & _).
  apply Hlt, Hj.
Qed.

Lemma initial_ok (config : option string) (delay : Z) (d : filesystem) :
  app_ok (initial config delay d).
Proof.
  unfold app_ok, initial, sched_ok, timers_wf. cbn. repeat split.
  - apply NoDup_singleton.
  - constructor; [cbn; lia|constructor].
  - discriminate.
  - constructor; [discriminate|constructor].
Qed.

Lemma step_ok (act : action) (a : DeltaForceConfigApp) :
  app_ok a -> app_ok (step act a).
Proof.
  intros Hok. destruct act as [game_exe| | | | | | |]; cbn [step].
  - unfold app_ok. destruct (start_monitoring_sched game_exe a) as [Hr Hp].
    rewrite Hr, Hp. exact Hok.
  - apply stop_monitoring_ok, Hok.
  - apply monitor_pass_ok, Hok.
  - apply fire_ok, Hok.
  - apply on_close_ok, Hok.
  - exact Hok.
  - exact Hok.
  - exact Hok.
Qed.

Lemma reachable_ok (a : DeltaForceConfigApp) : reachable a -> app_ok a.
Proof.
  induction 1 as [config delay d|act a _ IH]; [apply initial_ok|].
  apply step_ok, IH.
Qed.

Lemma exec_reachable (acts : list action) : forall a,
  reachable a -> reachable (exec acts a).
Proof.
  induction acts as [|act acts IH]; intros a Ha; [exact Ha|].
  cbn. apply IH. constructor. exact Ha.
Qed.

Lemma live_restore_elem (tk : Tk) (p : option nat) (j : nat) :
  sched_ok tk p -> j ∈ live_restore_jobs tk -> p = Some j.
Proof.
  intros (_ & _ & Hall) Hj. unfold live_restore_jobs in Hj.
  apply list_elem_of_fmap in Hj as (t & -> & Ht).
  apply list_elem_of_filter in Ht as [Hres Hin].
  rewrite Forall_forall in Hall. exact (Hall t Hin Hres).
Qed.

Lemma live_restore_NoDup (tk : Tk) : timers_wf tk -> NoDup (live_restore_jobs tk).
Proof.
  intros [Hnd _]. unfold live_restore_jobs.
  eapply sublist_NoDup; [exact Hnd|]. apply fmap_sublist, sublist_filter.
Qed.

Lemma live_restore_at_most_one (tk : Tk) (p : option nat) :
  sched_ok tk p -> length (live_restore_jobs tk) <= 1.
Proof.
  intros Hok. pose proof (live_restore_NoDup tk (proj1 Hok)) as Hnd.
  pose proof (fun j => live_restore_elem tk p j Hok) as Hel.
  destruct (live_restore_jobs tk) as [|x [|y l]]; cbn; [lia|lia|].
  exfalso.
  assert (Hx : p = Some x) by (apply Hel; left).
  assert (Hy : p = Some y) by (apply Hel; right; left).
  assert (x = y) by congruence. subst y.
  apply NoDup_cons in Hnd as [Hnot _]. apply Hnot. left.
Qed.

Lemma live_after_restore (ms : Z) (tk : Tk) :
  live_restore_jobs (snd (after ms cmd_restore_backup_to_game tk))
  = (live_restore_jobs tk ++ [next_job tk])%list.
Proof.
  unfold live_restore_jobs. cbn. rewrite filter_app, fmap_app. reflexivity.
Qed.

Lemma find_timer_cancelled (id : nat) (tk : Tk) :
  find_timer id (after_cancel id tk) = None.
Proof.
  unfold find_timer, after_cancel. cbn.
  induction (timers tk) as [|t l IH]; [reflexivity|].
  rewrite filter_cons. destruct (decide (job t ≠ id)) as [Hne|Heq]; [|exact IH].
  rewrite filter_cons. destruct (decide (job t = id)); [contradiction|exact IH].
Qed.

Lemma find_timer_after (id : nat) (ms : Z) (c : command) (tk : Tk) :
  id <> next_job tk ->
  find_timer id (snd (after ms c tk)) = find_timer id tk.
Proof.
  intros Hne. unfold find_timer. cbn. rewrite filter_app.
  rewrite (filter_cons _ _ []). cbn.
  destruct (decide (next_job tk = id)); [congruence|].
  rewrite ?filter_nil, app_nil_r. reflexivity.
Qed.

(** C2. In every reachable state of the application at most one restore
    timer can still fire, and it is the one recorded in
    [pending_restore_job]; a started edge handled in such a state leaves
    exactly one restore timer, the new one, and the handle that was
    pending before it is no longer scheduled. *)
Theorem single_pending_restore (a : DeltaForceConfigApp) :
  reachable a ->
  length (live_restore_jobs (root a)) <= 1
  /\ (forall j, j ∈ live_restore_jobs (root a) -> pending_restore_job a = Some j)
  /\ live_restore_jobs (root (_on_game_started a)) = [next_job (root a)]
  /\ pending_restore_job (_on_game_started a) = Some (next_job (root a))
  /\ (forall j, pending_restore_job a = Some j ->
        find_timer j (root (_on_game_started a)) = None).
Proof.
  intros Hreach. pose proof (reachable_ok a Hreach) as Hok.
  destruct (on_game_started_sched a) as (ms & Hr & Hp & _).
  destruct (cancel_pending_props a Hok) as (Hwf & Hn & Hj & _).
  split; [exact (live_restore_at_most_one _ _ Hok)|].
  split; [intros j; exact (live_restore_elem _ _ j Hok)|].
  split; [|split; [exact Hp|]].
  - rewrite Hr, live_after_restore, (no_restore_live _ Hn), Hj. reflexivity.
  - intros j Hpend. rewrite Hr.
    assert (Hlt : j < next_job (root a)) by (apply Hok; exact Hpend).
    rewrite find_timer_after by (rewrite Hj; lia).
    unfold cancel_pending. rewrite Hpend. cbn. apply find_timer_cancelled.
Qed.

Lemma single_pending_restore_witness :
  reachable (exec quick_restart demo_app)
  /\ pending_restore_job (exec quick_restart demo_app) = Some 5
  /\ length (live_restore_jobs (root (exec quick_restart demo_app))) <= 1
  /\ live_restore_jobs (root (_on_game_started (exec quick_restart demo_app))) = [6]
  /\ find_timer 5 (root (_on_game_started (exec quick_restart demo_app))) = None.
Proof.
  assert (Hreach : reachable (exec quick_restart demo_app))
    by (apply exec_reachable, reachable_initial).
  destruct (single_pending_restore _ Hreach) as (Hone & _ & Hlive & _ & Hgone).
  split; [exact Hreach|].
  split; [vm_compute; reflexivity|].
  split; [exact Hone|].
  split; [exact Hlive|].
  apply Hgone. vm_compute. reflexivity.
Defined.

(** ** Cancelling the pending restore *)

(** A stopped edge always cancels: afterwards no restore timer is left. *)
Lemma stopped_edge_cancels (a : DeltaForceConfigApp) :
  reachable a ->
  live_restore_jobs (root (_on_game_stopped a)) = []
  /\ pending_restore_job (_on_game_stopped a) = None.
Proof.
  intros Hreach. pose proof (reachable_ok a Hreach) as Hok.
  destruct (on_game_stopped_sched a) as (Hr & Hp & _).
  destruct (cancel_pending_props a Hok) as (_ & Hn & _).
  split; [|exact Hp]. rewrite Hr. apply no_restore_live, Hn.
Qed.

(** So does [_stop_monitoring] while the application holds a thread. *)
Lemma stop_with_thread_cancels (a : DeltaForceConfigApp) (m : ConfigMonitor) :
  reachable a -> monitor_thread a = Some m ->
  live_restore_jobs (root (_stop_monitoring a)) = []
  /\ pending_restore_job (_stop_monitoring a) = None
  /\ monitor_thread (_stop_monitoring a) = None
  /\ stopped_threads (_stop_monitoring a) = (stopped_threads a ++ [stop m])%list.
Proof.
  intros Hreach Hm. pose proof (reachable_ok a Hreach) as Hok.
  destruct (stop_monitoring_sched a m Hm) as (Hr & Hp & Hnone & _ & Hst).
  destruct (cancel_pending_props a Hok) as (_ & Hn & _).
  split; [|split; [exact Hp|split; [exact Hnone|exact Hst]]].
  rewrite Hr. apply no_restore_live, Hn.
Qed.


(** A thread whose stop event is set polls no more: its next pass ends
    [run] without calling the probe. *)
Lemma stopped_thread_polls_no_more (m : ConfigMonitor) (probe : result bool) :
  status m = Running ->
  iteration probe (stop m)
  = ({| _stop_event := true; last_running := last_running m; status := Returned |}, []).
Proof. intros Hs. unfold iteration, stop. cbn. rewrite Hs. reflexivity. Qed.

Lemma no_restore_cancel (id : nat) (tk : Tk) :
  no_restore tk -> no_restore (after_cancel id tk).
Proof. unfold no_restore. cbn. apply Forall_filter_keep. Qed.

Lemma no_restore_cancel_pending (a : DeltaForceConfigApp) :
  no_restore (root a) -> no_restore (root (cancel_pending a)).
Proof.
  unfold cancel_pending. destruct (pending_restore_job a); [|trivial].
  cbn. apply no_restore_cancel.
Qed.

Lemma no_restore_stop (a : DeltaForceConfigApp) :
  no_restore (root a) -> no_restore (root (_stop_monitoring a)).
Proof.
  intros Hn. destruct (monitor_thread a) as [m|] eqn:Hm.
  - destruct (stop_monitoring_sched a m Hm) as (Hr & _). rewrite Hr.
    apply no_restore_cancel_pending, Hn.
  - rewrite (stop_monitoring_idle a Hm). exact Hn.
Qed.

Lemma no_restore_pass (probe : result bool) (a : DeltaForceConfigApp) :
  no_restore (root a) -> no_restore (root (monitor_pass probe a)).
Proof.
  intros Hn. unfold monitor_pass.
  destruct (monitor_thread a) as [m|]; [|exact Hn].
  destruct (iteration probe m) as [m' cbs].
  assert (Hstart : no_restore (root (with_monitor (Some m') a))) by exact Hn.
  revert Hstart. generalize (with_monitor (Some m') a).
  induction cbs as [|cb cbs IH]; intros b Hb; [exact Hb|].
  cbn [fold_left]. apply IH. unfold no_restore, post. cbn.
  apply Forall_app. split; [exact Hb|].
  constructor; [|constructor]. unfold is_restore. cbn.
  destruct (decide (marshal cb = cmd_restore_backup_to_game)) as [E|_];
    [destruct cb; discriminate|reflexivity].
Qed.

Lemma no_restore_not_fired (act : action) (a : DeltaForceConfigApp) :
  no_restore (root a) -> fired_command act a <> Some cmd_restore_backup_to_game.
Proof.
  intros Hn. destruct act; cbn; try discriminate.
  destruct (find_timer id (root a)) as [t|] eqn:Hf; [|discriminate].
  apply find_timer_job in Hf as [_ Hin].
  unfold no_restore in Hn. rewrite Forall_forall in Hn. specialize (Hn t Hin).
  cbn. intros [= E]. unfold is_restore in Hn. rewrite E in Hn.
  destruct (decide (cmd_restore_backup_to_game = cmd_restore_backup_to_game));
    [discriminate|contradiction].
Qed.

Lemma no_restore_step (act : action) (a : DeltaForceConfigApp) :
  no_restore (root a) ->
  fired_command act a <> Some cmd_on_game_started ->
  no_restore (root (step act a)).
Proof.
  intros Hn Hnot. destruct act as [exe| |probe|id io| | | |]; cbn [step].
  - destruct (start_monitoring_sched exe a) as [Hr _]. rewrite Hr. exact Hn.
  - apply no_restore_stop, Hn.
  - apply no_restore_pass, Hn.
  - unfold fire. cbn in Hnot.
    destruct (find_timer id (root a)) as [t|] eqn:Hf; [|exact Hn].
    assert (Hcut : no_restore (root (with_root (after_cancel id (root a)) a)))
      by (apply no_restore_cancel, Hn).
    destruct (cmd t) eqn:Hc; cbn [run_command].
    + exact Hcut.
    + cbn in Hnot. congruence.
    + destruct (on_game_stopped_sched (with_root (after_cancel id (root a)) a))
        as (Hr & _).
      rewrite Hr. apply no_restore_cancel_pending, Hcut.
    + unfold _handle_monitor_error. apply no_restore_stop. exact Hcut.
    + destruct (restore_backup_sched io (with_root (after_cancel id (root a)) a))
        as (Hr & _).
      rewrite Hr. exact Hcut.
    + exact Hcut.
  - unfold on_close. destruct (_closing a); [exact Hn|]. constructor.
  - exact Hn.
  - exact Hn.
  - exact Hn.
Qed.

(** Once no restore timer is scheduled the restore is not invoked again
    before another start callback has been handled. *)
Lemma no_restore_until_next_start (acts : list action) : forall a,
  no_restore (root a) ->
  cmd_on_game_started ∉ fired_commands acts a ->
  cmd_restore_backup_to_game ∉ fired_commands acts a.
Proof.
  induction acts as [|act acts IH]; intros a Hn Hnot; [apply not_elem_of_nil|].
  cbn [fired_commands] in *.
  pose proof (no_restore_not_fired act a Hn) as Hfired.
  destruct (fired_command act a) as [c|] eqn:Hc.
  - apply not_elem_of_cons in Hnot as [Hne Hrest].
    apply not_elem_of_cons. split; [congruence|].
    apply IH; [|exact Hrest]. apply no_restore_step; [exact Hn|congruence].
  - apply IH; [|exact Hnot]. apply no_restore_step; [exact Hn|congruence].
Qed.

(** After a stopped edge, or a stop made while a thread is held, the
    cancelled restore never runs. *)
Lemma cancelled_restore_never_fires (a : DeltaForceConfigApp) (acts : list action) :
  reachable a ->
  (cmd_on_game_started ∉ fired_commands acts (_on_game_stopped a) ->
   cmd_restore_backup_to_game ∉ fired_commands acts (_on_game_stopped a))
  /\ (forall m, monitor_thread a = Some m ->
       cmd_on_game_started ∉ fired_commands acts (_stop_monitoring a) ->
       cmd_restore_backup_to_game ∉ fired_commands acts (_stop_monitoring a)).
Proof.
  intros Hreach. split.
  - apply no_restore_until_next_start, live_no_restore.
    exact (proj1 (stopped_edge_cancels a Hreach)).
  - intros m Hm. apply no_restore_until_next_start, live_no_restore.
    exact (proj1 (stop_with_thread_cancels a m Hreach Hm)).
Qed.

(** C3, the code at the failing execution.  The monitor sees the game
    start and then fails; the stop button is handled before the queued
    callbacks.  The late start callback schedules the restore after#4; the
    monitor stop made by [_handle_monitor_error] finds no thread, returns
    early and leaves that handle scheduled; when it fires the backup is
    copied over the live configuration. *)
Theorem stop_without_thread_keeps_restore :
  fired_commands late_callbacks demo_app
  = [ cmd_log_message "检测到游戏进程启动。";
      cmd_on_game_started;
      cmd_handle_monitor_error "监控线程发生异常: psutil failed" ]
  /\ monitor_thread (exec late_callbacks demo_app) = None
  /\ pending_restore_job (exec late_callbacks demo_app) = Some 4
  /\ live_restore_jobs (root (exec late_callbacks demo_app)) = [4]
  /\ fired_command (timer_fires 4 no_faults) (exec late_callbacks demo_app)
     = Some cmd_restore_backup_to_game
  /\ fs_calls (step (timer_fires 4 no_faults) (exec late_callbacks demo_app))
     = [ call_chmod live_config 420;
         call_copy2 BACKUP_FILE live_config;
         call_chmod live_config 310 ]
  /\ content <$> disk (step (timer_fires 4 no_faults) (exec late_callbacks demo_app))
                   !! live_config
     = Some "[Core]original".
Proof. vm_compute. repeat split. Qed.

Lemma iteration_stopped (probe : result bool) (m : ConfigMonitor) :
  snd (iteration probe (stop m)) = []
  /\ status (fst (iteration probe (stop m))) <> Running.
Proof.
  unfold iteration, stop. cbn.
  destruct (status m) eqn:E; cbn; rewrite ?E; split; congruence.
Qed.








(** ** The restore itself *)

Lemma testbit_set_write (m : Z) : Z.testbit (Z.lor m S_IWRITE) 7 = true.
Proof. rewrite Z.lor_spec. unfold S_IWRITE. cbn. apply orb_true_r. Qed.

Lemma testbit_clear_write (m : Z) :
  Z.testbit (Z.land m (Z.lnot S_IWRITE)) 7 = false.
Proof.
  rewrite Z.land_spec, Z.lnot_spec by lia. unfold S_IWRITE. cbn.
  apply andb_false_r.
Qed.

Lemma ensure_writable_other (refused : bool) (target p : string) (d : filesystem) :
  p <> target -> fst (_ensure_writable refused target d) !! p = d !! p.
Proof.
  intros Hne. unfold _ensure_writable, chmod.
  destruct (d !! target) as [f|]; [|reflexivity].
  destruct refused; cbn; [reflexivity|]. apply lookup_insert_ne. congruence.
Qed.

Lemma ensure_writable_target (target : string) (d : filesystem) (L : file) :
  d !! target = Some L ->
  fst (_ensure_writable false target d) !! target
  = Some {| content := content L; st_mode := Z.lor (st_mode L) S_IWRITE |}.
Proof.
  intros HL. unfold _ensure_writable, chmod. rewrite HL. cbn.
  apply lookup_insert_eq.
Qed.

Lemma copy2_ok (o : copy_outcome) (src dst : string) (d d2 : filesystem) (u : unit) :
  copy2 o src dst d = (d2, Ok u) ->
  src <> dst /\ exists f, d !! src = Some f /\ d2 = <[dst := f]> d.
Proof.
  unfold copy2. destruct (d !! src) as [f|]; [|discriminate].
  destruct (decide (src = dst)) as [Heq|Hne]; [discriminate|].
  destruct (d !! dst) as [old|];
    [destruct (is_writable old); [|discriminate]|];
    destruct o; try discriminate; intros [= <-]; eauto.
Qed.

Lemma copy2_completes (src dst : string) (d : filesystem) (f old : file) :
  d !! src = Some f -> src <> dst -> d !! dst = Some old ->
  is_writable old = true ->
  copy2 copy_completes src dst d = (<[dst := f]> d, Ok tt).
Proof.
  intros Hs Hne Hd Hw. unfold copy2. rewrite Hs.
  destruct (decide (src = dst)); [contradiction|]. rewrite Hd, Hw. reflexivity.
Qed.

Lemma ensure_read_only_target (refused : bool) (target : string)
      (d : filesystem) (f : file) :
  d !! target = Some f ->
  fst (_ensure_read_only refused target d) !! target
  = Some (if refused then f
          else {| content := content f;
                  st_mode := Z.land (st_mode f) (Z.lnot S_IWRITE) |}).
Proof.
  intros Hf. unfold _ensure_read_only, chmod. rewrite Hf.
  destruct refused; cbn; [exact Hf|apply lookup_insert_eq].
Qed.

(** The handler past its three guards is the [try] block followed by the
    report of its outcome. *)
Lemma restore_backup_runs (io : restore_io) (a : DeltaForceConfigApp)
      (target : string) (B L : file) :
  game_currently_running a = true ->
  selected_config_path a = Some target ->
  disk a !! BACKUP_FILE = Some B ->
  disk a !! target = Some L ->
  _restore_backup_to_game io a
  = match restore_files io BACKUP_FILE target (disk a) with
    | (d, calls, Raise exc) =>
        messagebox "恢复失败" ("无法写入配置: " +:+ exn_str exc)
          (log_message ("恢复失败: " +:+ exn_str exc)
             (with_disk d calls (with_pending None a)))
    | (d, calls, Ok _) =>
        _send_notification "✅ 配置已恢复" "备份已覆盖游戏配置并设置为只读。"
          (log_message "已将备份配置恢复到游戏目录并设置为只读。"
             (with_disk d calls (with_pending None a)))
    end.
Proof.
  intros Hrun Hsel HB HL. unfold _restore_backup_to_game. cbn.
  rewrite Hrun, Hsel. cbn. unfold exists_on. rewrite HL, HB. cbn.
  destruct (restore_files io BACKUP_FILE target (disk a)) as [[d calls] [u|e]];
    reflexivity.
Qed.

Lemma restore_files_ok (io : restore_io) (backup target : string)
      (d d' : filesystem) (calls : list fs_call) (u : unit) (B : file) :
  d !! backup = Some B ->
  restore_files io backup target d = (d', calls, Ok u) ->
  backup <> target
  /\ d' !! target
     = Some (if read_only_chmod_refused io then B
             else {| content := content B;
                     st_mode := Z.land (st_mode B) (Z.lnot S_IWRITE) |})
  /\ d' !! backup = Some B.
Proof.
  intros HB. unfold restore_files.
  pose proof (ensure_writable_other (writable_chmod_refused io) target backup d) as Hkeep.
  destruct (_ensure_writable (writable_chmod_refused io) target d) as [d1 c1].
  cbn [fst] in Hkeep.
  destruct (copy2 (copy_result io) backup target d1) as [d2 [u2|e]] eqn:Hcopy;
    [|discriminate].
  apply copy2_ok in Hcopy as (Hne & f & Hf & ->).
  rewrite (Hkeep Hne), HB in Hf. injection Hf as <-.
  pose proof (ensure_read_only_target (read_only_chmod_refused io) target
                (<[target := B]> d1) B (lookup_insert_eq _ _ _)) as Hro.
  assert (Hother : fst (_ensure_read_only (read_only_chmod_refused io) target
                          (<[target := B]> d1)) !! backup = Some B).
  { unfold _ensure_read_only, chmod. rewrite lookup_insert_eq.
    destruct (read_only_chmod_refused io); cbn;
      rewrite !lookup_insert_ne by congruence; rewrite (Hkeep Hne); exact HB. }
  destruct (_ensure_read_only (read_only_chmod_refused io) target
              (<[target := B]> d1)) as [d3 c3].
  cbn [fst] in Hro, Hother. intros [= <- _]. auto.
Qed.

(** C4. When a scheduled restore fires it reads [game_currently_running]
    in the state in which it fires.  If the game is then reported stopped
    the restore is skipped: the skip is logged, no operating-system call
    is made and the disk is untouched.  If the game is reported running
    (and both files exist and the copy goes through) the backup is copied
    over the live configuration.  With a configured delay of 0 the start
    callback schedules the restore with [after(0, ...)]. *)
Theorem fire_time_recheck (io : restore_io) (a : DeltaForceConfigApp)
        (j : nat) (t : timer) :
  find_timer j (root a) = Some t ->
  cmd t = cmd_restore_backup_to_game ->
  (game_currently_running a = false ->
     disk (fire j io a) = disk a
     /\ fs_calls (fire j io a) = fs_calls a
     /\ log_widget (fire j io a)
        = (log_widget a ++ ["游戏已停止，跳过恢复操作。"])%list
     /\ pending_restore_job (fire j io a) = None)
  /\ (forall target B L,
        game_currently_running a = true ->
        selected_config_path a = Some target ->
        disk a !! BACKUP_FILE = Some B ->
        disk a !! target = Some L ->
        target <> BACKUP_FILE ->
        writable_chmod_refused io = false ->
        copy_result io = copy_completes ->
        content <$> disk (fire j io a) !! target = Some (content B)
        /\ call_copy2 BACKUP_FILE target ∈ fs_calls (fire j io a))
  /\ (forall a0,
        restore_delay_var a0 = Some 0%Z ->
        timers (root (_on_game_started a0))
        = (timers (root (cancel_pending a0))
           ++ [{| job := next_job (root a0); delay_ms := 0;
                  cmd := cmd_restore_backup_to_game |}])%list
        /\ pending_restore_job (_on_game_started a0) = Some (next_job (root a0))).
Proof.
  intros Hfind Hcmd. unfold fire. rewrite Hfind, Hcmd. cbn [run_command].
  split; [|split].
  - intros Hstopped. unfold _restore_backup_to_game. cbn.
    rewrite Hstopped. cbn. repeat split.
  - intros target B L Hrun Hsel HB HL Hne Hw Hc.
    rewrite (restore_backup_runs io (with_root (after_cancel j (root a)) a)
               target B L Hrun Hsel HB HL).
    cbn [disk with_root].
    unfold restore_files. rewrite Hw, Hc.
    pose proof (ensure_writable_target target (disk a) L HL) as Ht.
    pose proof (ensure_writable_other false target BACKUP_FILE (disk a)
                  (not_eq_sym Hne)) as Hb.
    destruct (_ensure_writable false target (disk a)) as [d1 c1].
    cbn [fst] in Ht, Hb. rewrite HB in Hb.
    rewrite (copy2_completes BACKUP_FILE target d1 B _ Hb (not_eq_sym Hne) Ht
               (testbit_set_write _)).
    pose proof (ensure_read_only_target (read_only_chmod_refused io) target
                  (<[target := B]> d1) B (lookup_insert_eq _ _ _)) as Hro.
    destruct (_ensure_read_only (read_only_chmod_refused io) target
                (<[target := B]> d1)) as [d3 c3].
    cbn [fst] in Hro. cbn. rewrite Hro. split.
    + destruct (read_only_chmod_refused io); reflexivity.
    + rewrite !elem_of_app. right. right. left.
  - intros a0 Hzero. unfold _on_game_started, _get_restore_delay_seconds. cbn.
    rewrite Hzero. change (clamp_delay 0) with 0%Z.
    destruct (decide (0%Z = 0%Z)) as [_|Hn]; [|contradiction].
    unfold cancel_pending. cbn.
    destruct (pending_restore_job a0); cbn; split; reflexivity.
Qed.

Lemma fire_time_recheck_witness :
  (disk (fire 3 no_faults (with_running false (exec start_after_stop demo_app)))
   = disk (exec start_after_stop demo_app)
   /\ fs_calls (fire 3 no_faults (with_running false (exec start_after_stop demo_app)))
      = [])
  /\ content <$> disk (fire 3 no_faults (exec start_after_stop demo_app)) !! live_config
     = Some "[Core]original".
Proof.
  split.
  - destruct (fire_time_recheck no_faults
                (with_running false (exec start_after_stop demo_app)) 3
                {| job := 3; delay_ms := 8000; cmd := cmd_restore_backup_to_game |})
      as (Hskip & _); [vm_compute; reflexivity|reflexivity|].
    destruct Hskip as (Hdisk & Hcalls & _); [reflexivity|].
    split; [exact Hdisk|exact Hcalls].
  - destruct (fire_time_recheck no_faults (exec start_after_stop demo_app) 3
                {| job := 3; delay_ms := 8000; cmd := cmd_restore_backup_to_game |})
      as (_ & Hcopy & _); [vm_compute; reflexivity|reflexivity|].
    apply (Hcopy live_config
             {| content := "[Core]original"; st_mode := 438 |}
             {| content := "[Core]preset"; st_mode := 292 |});
      try (vm_compute; reflexivity).
    vm_compute. discriminate.
Defined.

(** C5. Backup [B] and live configuration [L] both exist, with any
    content.  When the restore completes, that is [shutil.copy2] returned
    and the chmod of [_ensure_read_only] was not refused, the live
    configuration holds the content of [B] and is read-only; the restore
    reports success. *)
Theorem restore_postcondition (io : restore_io) (a : DeltaForceConfigApp)
        (target : string) (B L : file) (d' : filesystem) (calls : list fs_call) :
  game_currently_running a = true ->
  selected_config_path a = Some target ->
  disk a !! BACKUP_FILE = Some B ->
  disk a !! target = Some L ->
  restore_files io BACKUP_FILE target (disk a) = (d', calls, Ok tt) ->
  read_only_chmod_refused io = false ->
  exists f,
    disk (_restore_backup_to_game io a) !! target = Some f
    /\ content f = content B
    /\ is_read_only f = true
    /\ log_widget (_restore_backup_to_game io a)
       = (log_widget a ++ ["已将备份配置恢复到游戏目录并设置为只读。"])%list.
Proof.
  intros Hrun Hsel HB HL Hfiles Hro.
  rewrite (restore_backup_runs io a target B L Hrun Hsel HB HL), Hfiles. cbn.
  destruct (restore_files_ok io BACKUP_FILE target (disk a) d' calls tt B HB Hfiles)
    as (_ & Ht & _).
  rewrite Hro in Ht. eexists. split; [exact Ht|].
  split; [reflexivity|]. split; [|reflexivity].
  unfold is_read_only, is_writable. cbn [st_mode].
  rewrite testbit_clear_write. reflexivity.
Qed.

Lemma restore_postcondition_witness :
  exists f,
    disk (_restore_backup_to_game no_faults (with_running true demo_app)) !! live_config
    = Some f
    /\ content f = "[Core]original"
    /\ is_read_only f = true.
Proof.
  destruct (restore_postcondition no_faults (with_running true demo_app) live_config
              {| content := "[Core]original"; st_mode := 438 |}
              {| content := "[Core]preset"; st_mode := 292 |}
              (fst (fst (restore_files no_faults BACKUP_FILE live_config demo_disk)))
              (snd (fst (restore_files no_faults BACKUP_FILE live_config demo_disk))))
    as (f & Hf & Hc & Hr & _).
  all: try (vm_compute; reflexivity).
  exists f. auto.
Defined.

(** C6, the claim as stated fails: the copy succeeds, the chmod that
    should make the live configuration read-only is refused, and the
    restore logs success, shows no error dialog and leaves the file
    writable. *)
Lemma read_only_failure_not_reported :
  log_widget (_restore_backup_to_game read_only_refused (with_running true demo_app))
  = [ "欢迎使用配置助手，请按步骤依次操作。";
      "已将备份配置恢复到游戏目录并设置为只读。" ]
  /\ dialogs (_restore_backup_to_game read_only_refused (with_running true demo_app))
     = []
  /\ disk (_restore_backup_to_game read_only_refused (with_running true demo_app))
       !! live_config
     = Some {| content := "[Core]original"; st_mode := 438 |}
  /\ is_read_only {| content := "[Core]original"; st_mode := 438 |} = false.
Proof. vm_compute. repeat split. Qed.

(** C6, as amended.  A failure of the copy step is caught and reported: a
    "恢复失败" line in the log and an error dialog carrying the exception,
    and the disk stays as the failed [shutil.copy2] left it (when only
    [copystat] failed, the copied content is in place).  A refused chmod
    is swallowed by [_ensure_read_only]: after a successful copy the
    restore logs success and shows no dialog, and the live configuration
    is the backup as [shutil.copy2] left it, content and mode: it is
    writable when the backup is, and read-only only when the backup file
    itself was read-only. *)
Theorem restore_failure_reporting (io : restore_io) (a : DeltaForceConfigApp)
        (target : string) (B L : file) :
  game_currently_running a = true ->
  selected_config_path a = Some target ->
  disk a !! BACKUP_FILE = Some B ->
  disk a !! target = Some L ->
  (forall d calls exc,
      restore_files io BACKUP_FILE target (disk a) = (d, calls, Raise exc) ->
      disk (_restore_backup_to_game io a) = d
      /\ log_widget (_restore_backup_to_game io a)
         = (log_widget a ++ ["恢复失败: " +:+ exn_str exc])%list
      /\ dialogs (_restore_backup_to_game io a)
         = (dialogs a ++ [("恢复失败", "无法写入配置: " +:+ exn_str exc)])%list)
  /\ (forall d calls,
        restore_files io BACKUP_FILE target (disk a) = (d, calls, Ok tt) ->
        read_only_chmod_refused io = true ->
        disk (_restore_backup_to_game io a) !! target = Some B
        /\ is_read_only <$> disk (_restore_backup_to_game io a) !! target
           = Some (is_read_only B)
        /\ log_widget (_restore_backup_to_game io a)
           = (log_widget a ++ ["已将备份配置恢复到游戏目录并设置为只读。"])%list
        /\ dialogs (_restore_backup_to_game io a) = dialogs a)
  /\ (forall msg,
        copy_result io = copy_stat_fails msg ->
        writable_chmod_refused io = false ->
        target <> BACKUP_FILE ->
        content <$> disk (_restore_backup_to_game io a) !! target = Some (content B)
        /\ dialogs (_restore_backup_to_game io a)
           = (dialogs a ++ [("恢复失败", "无法写入配置: " +:+ msg)])%list).
Proof.
  intros Hrun Hsel HB HL.
  rewrite (restore_backup_runs io a target B L Hrun Hsel HB HL).
  split; [|split].
  - intros d calls exc Hfiles. rewrite Hfiles. cbn. repeat split.
  - intros d calls Hfiles Hro. rewrite Hfiles. cbn.
    destruct (restore_files_ok io BACKUP_FILE target (disk a) d calls tt B HB Hfiles)
      as (_ & Ht & _).
    rewrite Hro in Ht. repeat split; [exact Ht|rewrite Ht; reflexivity].
  - intros msg Hc Hw Hne. unfold restore_files. rewrite Hw, Hc.
    pose proof (ensure_writable_target target (disk a) L HL) as Ht.
    pose proof (ensure_writable_other false target BACKUP_FILE (disk a)
                  (not_eq_sym Hne)) as Hb.
    destruct (_ensure_writable false target (disk a)) as [d1 c1].
    cbn [fst] in Ht, Hb. rewrite HB in Hb.
    unfold copy2. rewrite Hb.
    destruct (decide (BACKUP_FILE = target)) as [Heq|_]; [congruence|].
    rewrite Ht. unfold is_writable. cbn [st_mode]. rewrite testbit_set_write.
    cbn. rewrite lookup_insert_eq. split; reflexivity.
Qed.

Lemma restore_failure_reporting_witness :
  (disk (_restore_backup_to_game read_only_refused (with_running true demo_app))
     !! live_config
   = Some {| content := "[Core]original"; st_mode := 438 |}
   /\ is_read_only
        <$> disk (_restore_backup_to_game read_only_refused (with_running true demo_app))
              !! live_config
      = Some false
   /\ dialogs (_restore_backup_to_game read_only_refused (with_running true demo_app))
      = [])
  /\ content <$> disk (_restore_backup_to_game copystat_fails
                         (with_running true demo_app)) !! live_config
     = Some "[Core]original"
  /\ dialogs (_restore_backup_to_game copystat_fails (with_running true demo_app))
     = [("恢复失败", "无法写入配置: Operation not permitted")].
Proof.
  split.
  - destruct (restore_failure_reporting read_only_refused
                (with_running true demo_app) live_config
                {| content := "[Core]original"; st_mode := 438 |}
                {| content := "[Core]preset"; st_mode := 292 |})
      as (_ & Hswallowed & _); try (vm_compute; reflexivity).
    destruct (Hswallowed
                (fst (fst (restore_files read_only_refused BACKUP_FILE live_config
                             demo_disk)))
                (snd (fst (restore_files read_only_refused BACKUP_FILE live_config
                             demo_disk))))
      as (Hdisk & Hmode & _ & Hdialogs); try (vm_compute; reflexivity).
    split; [exact Hdisk|split; [exact Hmode|exact Hdialogs]].
  - destruct (restore_failure_reporting copystat_fails
                (with_running true demo_app) live_config
                {| content := "[Core]original"; st_mode := 438 |}
                {| content := "[Core]preset"; st_mode := 292 |})
      as (_ & _ & Hstat); try (vm_compute; reflexivity).
    apply (Hstat "Operation not permitted"); try reflexivity.
    vm_compute. discriminate.
Defined.

(** ** The anti-aliasing patch *)

Import AntiAliasing.
Local Open Scope list_scope.

Lemma startswith_app (p s : text) : startswith p (p ++ s) = true.
Proof.
  induction p as [|c p IH]; [destruct s; reflexivity|].
  cbn. destruct (decide (c = c)); [exact IH|contradiction].
Qed.

Lemma contains_cons (needle : text) (c : N) (hay : text) :
  contains needle (c :: hay) = startswith needle (c :: hay) || contains needle hay.
Proof. cbn [contains]. destruct (startswith needle (c :: hay)); reflexivity. Qed.

Lemma contains_infix (needle a b : text) :
  contains needle (a ++ needle ++ b) = true.
Proof.
  induction a as [|c a IH].
  - cbn [app]. destruct (needle ++ b) eqn:E.
    + cbn. rewrite <- E, startswith_app. reflexivity.
    + rewrite contains_cons, <- E, startswith_app. reflexivity.
  - cbn [app]. rewrite contains_cons, IH. apply orb_true_r.
Qed.

Lemma join_lines_cons (l : text) (rest : list text) :
  rest <> [] -> join_lines (l :: rest) = (l ++ 10%N :: join_lines rest)%list.
Proof. destruct rest; [contradiction|reflexivity]. Qed.

Lemma join_lines_infix (x : text) (lines : list text) :
  x ∈ lines -> exists a b, join_lines lines = (a ++ x ++ b)%list.
Proof.
  induction lines as [|l rest IH]; intros Hin; [inversion Hin|].
  destruct (decide (rest = [])) as [->|Hne].
  - apply list_elem_of_singleton in Hin as ->. exists [], []. cbn.
    rewrite app_nil_r. reflexivity.
  - rewrite join_lines_cons by exact Hne.
    apply elem_of_cons in Hin as [->|Hin].
    + exists [], (10%N :: join_lines rest). reflexivity.
    + destruct (IH Hin) as (a & b & ->).
      exists (l ++ 10%N :: a)%list, b. rewrite <- app_assoc. reflexivity.
Qed.

Lemma contains_written (x : text) (lines : list text) :
  x ∈ lines -> contains x (ensure_trailing_newline (join_lines lines)) = true.
Proof.
  intros Hin. destruct (join_lines_infix x lines Hin) as (a & b & ->).
  unfold ensure_trailing_newline.
  destruct (endswith [10%N] (a ++ x ++ b)); [apply contains_infix|].
  rewrite <- !app_assoc. apply contains_infix.
Qed.

Section PatchProperties.
Variable lower : text -> text.

Lemma scan_replace_bound (lines : list text) : forall i in_section found ins idx,
  scan lower lines i in_section found ins = scan_replace idx ->
  i <= idx < i + length lines.
Proof.
  induction lines as [|line rest IH]; intros i s f ins idx; cbn [scan];
    [discriminate|].
  destruct (is_header (strip line)).
  - intros H. apply IH in H. cbn [length]. lia.
  - destruct (s && startswith (lit "sg.antialiasingquality") (lower (strip line))).
    + destruct (text_eqb (strip line) target); [discriminate|].
      intros [= <-]. cbn [length]. lia.
    + intros H. apply IH in H. cbn [length]. lia.
Qed.

Lemma patched_lines_target (lines lines' : list text) (msg : string) :
  patched_lines lower lines = inr (lines', msg) -> target ∈ lines'.
Proof.
  unfold patched_lines.
  destruct (scan lower lines 0 false false None) as [|idx|[|] [i|]] eqn:Hscan;
    [discriminate|..]; intros [= <- _].
  - apply scan_replace_bound in Hscan. cbn in Hscan.
    apply list_elem_of_lookup. exists idx.
    apply list_lookup_insert_eq. lia.
  - unfold list_insert_at. apply elem_of_app. right. left.
  - apply elem_of_app. right. left.
  - apply elem_of_app. right. right. left.
  - apply elem_of_app. right. right. left.
Qed.

(** [apply_anti_aliasing_setting] either returns [False] before any write,
    or hands a content that contains the setting to [write_text]. *)
Lemma apply_cases (io : file_io) (path : string) (fs : filesystem) :
  (exists msg, apply_anti_aliasing_setting lower io path fs = (fs, (msg, false)))
  \/ (exists data msg,
        contains target data = true
        /\ apply_anti_aliasing_setting lower io path fs
           = match write_text io path data fs with
             | (fs', Raise exc) => (fs', ("写入配置文件失败: " +:+ exn_str exc, false))
             | (fs', Ok _) => (fs', (msg, true))
             end).
Proof.
  unfold apply_anti_aliasing_setting.
  destruct (fs !! path) as [f|]; [|left; eauto].
  destruct (read_content io f) as [msg|content]; [left; eauto|].
  destruct (contains target content); [left; eauto|].
  destruct (patched_lines lower (splitlines content)) as [msg|[lines msg]] eqn:Hp;
    [left; eauto|].
  right. exists (ensure_trailing_newline (join_lines lines)), msg.
  split; [|reflexivity].
  apply contains_written. exact (patched_lines_target _ _ _ Hp).
Qed.

Lemma remove_cases (io : file_io) (path : string) (fs : filesystem) :
  (exists msg, remove_anti_aliasing_setting lower io path fs = (fs, (msg, false)))
  \/ (exists data,
        remove_anti_aliasing_setting lower io path fs
        = match write_text io path data fs with
          | (fs', Raise exc) => (fs', ("写入配置文件失败: " +:+ exn_str exc, false))
          | (fs', Ok _) => (fs', ("已移除抗锯齿设置，还原文件。", true))
          end).
Proof.
  unfold remove_anti_aliasing_setting.
  destruct (fs !! path) as [f|]; [|left; eauto].
  destruct (read_content io f) as [msg|content]; [left; eauto|].
  destruct (_strip_anti_aliasing_setting lower content) as [updated changed].
  destruct changed; cbn [negb]; [|left; eauto].
  right. eexists. reflexivity.
Qed.

Lemma read_content_decoded (io : file_io) (f : ini_file) (c : text) :
  read_content io f = inr c -> c = decoded f.
Proof.
  unfold read_content, read_text, read_text_ignore.
  destruct (strict_read_error io); [discriminate|].
  destruct (valid_utf8 f); [intros [= <-]; reflexivity|].
  destruct (lenient_read_error io); [discriminate|].
  intros [= <-]; reflexivity.
Qed.

Lemma apply_when_present (io : file_io) (path : string) (fs : filesystem)
      (f : ini_file) :
  fs !! path = Some f ->
  contains target (decoded f) = true ->
  fst (apply_anti_aliasing_setting lower io path fs) = fs
  /\ snd (snd (apply_anti_aliasing_setting lower io path fs)) = false
  /\ (forall c, read_content io f = inr c ->
        fst (snd (apply_anti_aliasing_setting lower io path fs))
        = "抗锯齿设置已存在，无需修改。").
Proof.
  intros Hf Hc. unfold apply_anti_aliasing_setting. rewrite Hf.
  destruct (read_content io f) as [msg|content] eqn:Hr; [repeat split; discriminate|].
  rewrite (read_content_decoded io f content Hr), Hc. repeat split.
Qed.

End PatchProperties.

(** C9. On a file whose content already contains
    "sg.AntiAliasingQuality=0", [apply_anti_aliasing_setting] returns
    [False] without writing (with the "already present" message whenever
    the file could be read).  Hence a second application after one that
    returned [True] returns [False] and changes nothing, whatever happens
    to its reads, and on a disk without faults applying twice leaves the
    file system as applying once does. *)
Theorem apply_twice_is_apply_once (lower : text -> text) (io io2 : file_io)
        (path : string) (fs : filesystem) :
  (forall f,
      fs !! path = Some f ->
      contains target (decoded f) = true ->
      fst (apply_anti_aliasing_setting lower io path fs) = fs
      /\ snd (snd (apply_anti_aliasing_setting lower io path fs)) = false
      /\ (forall c, read_content io f = inr c ->
            fst (snd (apply_anti_aliasing_setting lower io path fs))
            = "抗锯齿设置已存在，无需修改。"))
  /\ (snd (snd (apply_anti_aliasing_setting lower io path fs)) = true ->
      fst (apply_anti_aliasing_setting lower io2 path
             (fst (apply_anti_aliasing_setting lower io path fs)))
      = fst (apply_anti_aliasing_setting lower io path fs)
      /\ snd (snd (apply_anti_aliasing_setting lower io2 path
                     (fst (apply_anti_aliasing_setting lower io path fs)))) = false)
  /\ fst (apply_anti_aliasing_setting lower reliable path
            (fst (apply_anti_aliasing_setting lower reliable path fs)))
     = fst (apply_anti_aliasing_setting lower reliable path fs).
Proof.
  assert (Hsecond : forall io1 io', 
             snd (snd (apply_anti_aliasing_setting lower io1 path fs)) = true ->
             fst (apply_anti_aliasing_setting lower io' path
                    (fst (apply_anti_aliasing_setting lower io1 path fs)))
             = fst (apply_anti_aliasing_setting lower io1 path fs)
             /\ snd (snd (apply_anti_aliasing_setting lower io' path
                            (fst (apply_anti_aliasing_setting lower io1 path fs))))
                = false).
  { intros io1 io' Htrue.
    destruct (apply_cases lower io1 path fs) as [[msg H]|(data & msg & Hc & H)];
      rewrite H in Htrue |- *; [discriminate|].
    unfold write_text in *. destruct (write_result io1); [|discriminate..].
    cbn [fst snd].
    destruct (apply_when_present lower io' path
                (<[path := {| decoded := data; valid_utf8 := true |}]> fs)
                {| decoded := data; valid_utf8 := true |}
                (lookup_insert_eq _ _ _) Hc) as (Hfs & Hfalse & _).
    split; assumption. }
  split; [intros f Hf Hc; exact (apply_when_present lower io path fs f Hf Hc)|].
  split; [exact (Hsecond io io2)|].
  destruct (snd (snd (apply_anti_aliasing_setting lower reliable path fs))) eqn:Hres.
  - exact (proj1 (Hsecond reliable reliable Hres)).
  - assert (Hsame : fst (apply_anti_aliasing_setting lower reliable path fs) = fs).
    { destruct (apply_cases lower reliable path fs) as [[msg H]|(data & msg & _ & H)];
        rewrite H in Hres |- *; [reflexivity|]. cbn in Hres. discriminate. }
    rewrite Hsame. exact Hsame.
Qed.

Lemma apply_twice_is_apply_once_witness :
  (fst (apply_anti_aliasing_setting ascii_lower reliable settings_path patched_settings)
   = patched_settings
   /\ snd (apply_anti_aliasing_setting ascii_lower reliable settings_path patched_settings)
      = ("抗锯齿设置已存在，无需修改。", false))
  /\ fst (apply_anti_aliasing_setting ascii_lower disk_full settings_path
            (fst (apply_anti_aliasing_setting ascii_lower reliable settings_path
                    plain_settings)))
     = patched_settings.
Proof.
  destruct (apply_twice_is_apply_once ascii_lower reliable disk_full settings_path
              patched_settings) as (Hpresent & _).
  destruct (apply_twice_is_apply_once ascii_lower reliable disk_full settings_path
              plain_settings) as (_ & Hsecond & _).
  split.
  - destruct (Hpresent
                {| decoded := lit "[ScalabilityGroups]" ++ [10%N]
                              ++ lit "sg.ShadowQuality=2" ++ [10%N]
                              ++ lit "sg.AntiAliasingQuality=0" ++ [10%N];
                   valid_utf8 := true |})
      as (Hfs & Hfalse & Hmsg); try (vm_compute; reflexivity).
    split; [exact Hfs|].
    rewrite (surjective_pairing (apply_anti_aliasing_setting _ _ _ _)).
    rewrite (surjective_pairing (snd _)). cbn [snd].
    rewrite Hfalse, (Hmsg _ eq_refl). reflexivity.
  - destruct Hsecond as (Hfs & _); [vm_compute; reflexivity|].
    rewrite Hfs. vm_compute. reflexivity.
Defined.

(** C10, the claim as stated fails: [write_text] opens the file with mode
    'w', which empties it; when the write then fails the function returns
    [False] and the old content is gone. *)
Lemma failed_write_loses_content :
  snd (apply_anti_aliasing_setting ascii_lower disk_full settings_path plain_settings)
  = ("写入配置文件失败: No space left on device", false)
  /\ decoded <$> fst (apply_anti_aliasing_setting ascii_lower disk_full settings_path
                        plain_settings) !! settings_path
     = Some []
  /\ decoded <$> plain_settings !! settings_path
     = Some (lit "[ScalabilityGroups]" ++ [10%N]
             ++ lit "sg.ShadowQuality=2" ++ [10%N])
  /\ snd (remove_anti_aliasing_setting ascii_lower disk_full settings_path
            patched_settings)
     = ("写入配置文件失败: No space left on device", false)
  /\ decoded <$> fst (remove_anti_aliasing_setting ascii_lower disk_full settings_path
                        patched_settings) !! settings_path
     = Some [].
Proof. vm_compute. repeat split. Qed.

Lemma write_text_false (io : file_io) (path : string) (data : text)
      (fs fs' : filesystem) (exc : exn) :
  write_text io path data fs = (fs', Raise exc) ->
  (fs' = fs /\ exists msg, write_result io = write_open_fails msg)
  \/ (exists msg kept,
        write_result io = write_fails_after_open msg kept
        /\ exc = OSError msg
        /\ fs' = <[path := {| decoded := take kept data; valid_utf8 := true |}]> fs).
Proof.
  unfold write_text. destruct (write_result io) as [|msg|msg kept];
    [discriminate| |]; intros [= <- <-]; eauto 8.
Qed.

Lemma apply_outcome (lower : text -> text) (io : file_io) (path : string)
      (fs : filesystem) :
  (exists msg, apply_anti_aliasing_setting lower io path fs = (fs, (msg, false)))
  \/ (exists f data msg,
        fs !! path = Some f
        /\ applied_content lower (decoded f) = Some data
        /\ contains target data = true
        /\ apply_anti_aliasing_setting lower io path fs
           = match write_text io path data fs with
             | (fs', Raise exc) => (fs', ("写入配置文件失败: " +:+ exn_str exc, false))
             | (fs', Ok _) => (fs', (msg, true))
             end).
Proof.
  unfold apply_anti_aliasing_setting.
  destruct (fs !! path) as [f|]; [|left; eauto].
  destruct (read_content io f) as [msg|content] eqn:Hr; [left; eauto|].
  rewrite (read_content_decoded io f content Hr).
  destruct (contains target (decoded f)) eqn:Hc; [left; eauto|].
  destruct (patched_lines lower (splitlines (decoded f))) as [msg|[lines msg]] eqn:Hp;
    [left; eauto|].
  right. exists f, (ensure_trailing_newline (join_lines lines)), msg.
  split; [reflexivity|].
  split; [unfold applied_content; rewrite Hc, Hp; reflexivity|].
  split; [|reflexivity].
  apply contains_written. exact (patched_lines_target lower _ _ _ Hp).
Qed.

Lemma remove_outcome (lower : text -> text) (io : file_io) (path : string)
      (fs : filesystem) :
  (exists msg, remove_anti_aliasing_setting lower io path fs = (fs, (msg, false)))
  \/ (exists f data,
        fs !! path = Some f
        /\ removed_content lower (decoded f) = Some data
        /\ remove_anti_aliasing_setting lower io path fs
           = match write_text io path data fs with
             | (fs', Raise exc) => (fs', ("写入配置文件失败: " +:+ exn_str exc, false))
             | (fs', Ok _) => (fs', ("已移除抗锯齿设置，还原文件。", true))
             end).
Proof.
  unfold remove_anti_aliasing_setting.
  destruct (fs !! path) as [f|]; [|left; eauto].
  destruct (read_content io f) as [msg|content] eqn:Hr; [left; eauto|].
  rewrite (read_content_decoded io f content Hr).
  destruct (_strip_anti_aliasing_setting lower (decoded f)) as [updated changed] eqn:Hs.
  destruct changed; cbn [negb]; [|left; eauto].
  right. eexists f, _. split; [reflexivity|].
  split; [unfold removed_content; rewrite Hs; reflexivity|reflexivity].
Qed.

(** C10, as amended.  When [apply_anti_aliasing_setting] or
    [remove_anti_aliasing_setting] returns [False], the file system is
    unchanged unless the write itself failed after the file had been
    opened for writing; in that case the file holds the first [kept]
    characters of the new content the function was writing, and nothing of
    the old content.  On [True] the write completed and the file holds
    exactly that new content; for [apply_anti_aliasing_setting] it
    contains the setting.  No other file changes in any case. *)
Theorem false_result_writes_nothing (lower : text -> text) (io : file_io)
        (path : string) (fs : filesystem) :
  (snd (snd (apply_anti_aliasing_setting lower io path fs)) = false ->
     fst (apply_anti_aliasing_setting lower io path fs) = fs
     \/ exists msg kept f data,
          fs !! path = Some f
          /\ applied_content lower (decoded f) = Some data
          /\ write_result io = write_fails_after_open msg kept
          /\ fst (snd (apply_anti_aliasing_setting lower io path fs))
             = "写入配置文件失败: " +:+ msg
          /\ fst (apply_anti_aliasing_setting lower io path fs)
             = <[path := {| decoded := take kept data; valid_utf8 := true |}]> fs)
  /\ (snd (snd (remove_anti_aliasing_setting lower io path fs)) = false ->
     fst (remove_anti_aliasing_setting lower io path fs) = fs
     \/ exists msg kept f data,
          fs !! path = Some f
          /\ removed_content lower (decoded f) = Some data
          /\ write_result io = write_fails_after_open msg kept
          /\ fst (snd (remove_anti_aliasing_setting lower io path fs))
             = "写入配置文件失败: " +:+ msg
          /\ fst (remove_anti_aliasing_setting lower io path fs)
             = <[path := {| decoded := take kept data; valid_utf8 := true |}]> fs)
  /\ (snd (snd (apply_anti_aliasing_setting lower io path fs)) = true ->
     write_result io = write_completes
     /\ exists f data,
          fs !! path = Some f
          /\ applied_content lower (decoded f) = Some data
          /\ contains target data = true
          /\ fst (apply_anti_aliasing_setting lower io path fs)
             = <[path := {| decoded := data; valid_utf8 := true |}]> fs)
  /\ (snd (snd (remove_anti_aliasing_setting lower io path fs)) = true ->
     write_result io = write_completes
     /\ exists f data,
          fs !! path = Some f
          /\ removed_content lower (decoded f) = Some data
          /\ fst (remove_anti_aliasing_setting lower io path fs)
             = <[path := {| decoded := data; valid_utf8 := true |}]> fs).
Proof.
  split; [|split; [|split]].
  - intros Hres.
    destruct (apply_outcome lower io path fs)
      as [[msg H]|(f & data & msg & Hf & Hdata & _ & H)];
      rewrite H in Hres |- *; [left; reflexivity|].
    destruct (write_text io path data fs) as [fs' [u|exc]] eqn:Hw; [discriminate|].
    apply write_text_false in Hw as [[-> _]|(m & kept & Hio & -> & ->)];
      [left; reflexivity|].
    right. exists m, kept, f, data. repeat split; assumption.
  - intros Hres.
    destruct (remove_outcome lower io path fs)
      as [[msg H]|(f & data & Hf & Hdata & H)];
      rewrite H in Hres |- *; [left; reflexivity|].
    destruct (write_text io path data fs) as [fs' [u|exc]] eqn:Hw; [discriminate|].
    apply write_text_false in Hw as [[-> _]|(m & kept & Hio & -> & ->)];
      [left; reflexivity|].
    right. exists m, kept, f, data. repeat split; assumption.
  - intros Hres.
    destruct (apply_outcome lower io path fs)
      as [[msg H]|(f & data & msg & Hf & Hdata & Hin & H)];
      rewrite H in Hres |- *; [discriminate|].
    unfold write_text in *.
    destruct (write_result io); [|discriminate..].
    split; [reflexivity|]. exists f, data. repeat split; assumption.
  - intros Hres.
    destruct (remove_outcome lower io path fs)
      as [[msg H]|(f & data & Hf & Hdata & H)];
      rewrite H in Hres |- *; [discriminate|].
    unfold write_text in *.
    destruct (write_result io); [|discriminate..].
    split; [reflexivity|]. exists f, data. repeat split; assumption.
Qed.

Lemma false_result_writes_nothing_witness :
  fst (apply_anti_aliasing_setting ascii_lower reliable settings_path patched_settings)
  = patched_settings
  /\ decoded <$> fst (apply_anti_aliasing_setting ascii_lower reliable settings_path
                        plain_settings) !! settings_path
     = Some (lit "[ScalabilityGroups]" ++ [10%N]
             ++ lit "sg.ShadowQuality=2" ++ [10%N]
             ++ lit "sg.AntiAliasingQuality=0" ++ [10%N])
  /\ decoded <$> fst (remove_anti_aliasing_setting ascii_lower reliable settings_path
                        patched_settings) !! settings_path
     = Some (lit "[ScalabilityGroups]" ++ [10%N]
             ++ lit "sg.ShadowQuality=2" ++ [10%N]).
Proof.
  destruct (false_result_writes_nothing ascii_lower reliable settings_path
              patched_settings) as (Hfalse & _ & _ & Hremoved).
  destruct (false_result_writes_nothing ascii_lower reliable settings_path
              plain_settings) as (_ & _ & Happlied & _).
  split; [|split].
  - destruct Hfalse as [Hsame|(msg & kept & f & data & _ & _ & Hio & _)];
      [vm_compute; reflexivity|exact Hsame|discriminate Hio].
  - destruct Happlied as (_ & f & data & Hf & Hdata & _ & Hfs);
      [vm_compute; reflexivity|].
    vm_compute in Hf. injection Hf as <-.
    vm_compute in Hdata. injection Hdata as <-.
    rewrite Hfs, lookup_insert_eq. vm_compute. reflexivity.
  - destruct Hremoved as (_ & f & data & Hf & Hdata & Hfs);
      [vm_compute; reflexivity|].
    vm_compute in Hf. injection Hf as <-.
    vm_compute in Hdata. injection Hdata as <-.
    rewrite Hfs, lookup_insert_eq. vm_compute. reflexivity.
Defined.

(** * Further properties of the code *)

(** ** The restore delay *)

Lemma clamp_delay_range (v : Z) : (0 <= clamp_delay v <= 120)%Z.
Proof. unfold clamp_delay. lia. Qed.

Lemma clamp_delay_fixed (v : Z) : clamp_delay (clamp_delay v) = clamp_delay v.
Proof. unfold clamp_delay. lia. Qed.

Lemma get_delay_running (b : bool) (a : DeltaForceConfigApp) :
  fst (_get_restore_delay_seconds (with_running b a))
  = fst (_get_restore_delay_seconds a).
Proof.
  unfold _get_restore_delay_seconds. cbn.
  destruct (restore_delay_var a) as [raw|]; [|reflexivity].
  destruct (decide (clamp_delay raw = raw)); reflexivity.
Qed.

(** X1. When [IntVar.get] answers an integer (negative, huge or in
    range) or raises TclError, the two cases [_get_restore_delay_seconds]
    provides for and [restore_delay_var] stands for, the function answers
    a delay between 0 and 120 seconds; reading again gives the same answer
    and changes nothing more; and the restore timer scheduled by
    [_on_game_started] waits exactly that many seconds, in milliseconds.
    An exception of another type raised by [IntVar.get] is not caught by
    the function and is outside this statement. *)
Theorem restore_delay_always_clamped (a : DeltaForceConfigApp) :
  (0 <= fst (_get_restore_delay_seconds a) <= 120)%Z
  /\ _get_restore_delay_seconds (snd (_get_restore_delay_seconds a))
     = _get_restore_delay_seconds a
  /\ last (timers (root (_on_game_started a)))
     = Some {| job := next_job (root a);
               delay_ms := (fst (_get_restore_delay_seconds a) * 1000)%Z;
               cmd := cmd_restore_backup_to_game |}.
Proof.
  split; [|split].
  - unfold _get_restore_delay_seconds.
    destruct (restore_delay_var a) as [raw|];
      [destruct (decide (clamp_delay raw = raw))|]; cbn;
      try apply clamp_delay_range. unfold DEFAULT_RESTORE_DELAY_SECONDS. lia.
  - unfold _get_restore_delay_seconds.
    destruct (restore_delay_var a) as [raw|] eqn:E; [|cbn; rewrite E; reflexivity].
    destruct (decide (clamp_delay raw = raw)) as [Heq|Hne]; cbn.
    + rewrite E. destruct (decide (clamp_delay raw = raw)); [reflexivity|contradiction].
    + destruct (decide (clamp_delay (clamp_delay raw) = clamp_delay raw)) as [_|Hn];
        [rewrite clamp_delay_fixed; reflexivity|].
      exfalso. apply Hn, clamp_delay_fixed.
  - unfold _on_game_started.
    pose proof (get_delay_running true a) as Hd.
    pose proof (get_delay_frame (with_running true a)) as Hf.
    assert (Hrange : (0 <= fst (_get_restore_delay_seconds a) <= 120)%Z).
    { unfold _get_restore_delay_seconds.
      destruct (restore_delay_var a) as [raw|];
        [destruct (decide (clamp_delay raw = raw))|]; cbn;
        try apply clamp_delay_range. unfold DEFAULT_RESTORE_DELAY_SECONDS. lia. }
    destruct (_get_restore_delay_seconds (with_running true a)) as [d a1].
    cbn [fst snd] in Hd, Hf. destruct Hf as (Hr & Hp & _). subst d.
    cbn in Hr, Hp. unfold cancel_pending. cbn. rewrite Hp.
    replace (Z.max 0 (fst (_get_restore_delay_seconds a)))
      with (fst (_get_restore_delay_seconds a)) by lia.
    destruct (pending_restore_job a); cbn; rewrite ?Hr; apply last_snoc.
Qed.

(** ** The permission helpers *)

Lemma set_write_keeps_others (m : Z) :
  Z.land (Z.lor m S_IWRITE) (Z.lnot S_IWRITE) = Z.land m (Z.lnot S_IWRITE).
Proof.
  apply Z.bits_inj'. intros n Hn.
  rewrite !Z.land_spec, Z.lor_spec, Z.lnot_spec by lia.
  destruct (Z.testbit m n), (Z.testbit S_IWRITE n); reflexivity.
Qed.

Lemma clear_write_keeps_others (m : Z) :
  Z.land (Z.land m (Z.lnot S_IWRITE)) (Z.lnot S_IWRITE) = Z.land m (Z.lnot S_IWRITE).
Proof. rewrite <- Z.land_assoc, Z.land_diag. reflexivity. Qed.

(** X2. [_ensure_writable] and [_ensure_read_only] change nothing but the
    owner-write bit of their target: on every path the content and all the
    other mode bits stay as they were (no file appears or disappears),
    whether or not the chmod is refused; when it is not refused the target
    ends writable, respectively read-only; a missing target makes no
    system call. *)
Theorem chmod_helpers_touch_only_the_write_bit (refused : bool) (target p : string)
        (d : App.filesystem) :
  (λ f, (content f, Z.land (st_mode f) (Z.lnot S_IWRITE)))
    <$> fst (_ensure_writable refused target d) !! p
  = (λ f, (content f, Z.land (st_mode f) (Z.lnot S_IWRITE))) <$> d !! p
  /\ (λ f, (content f, Z.land (st_mode f) (Z.lnot S_IWRITE)))
       <$> fst (_ensure_read_only refused target d) !! p
     = (λ f, (content f, Z.land (st_mode f) (Z.lnot S_IWRITE))) <$> d !! p
  /\ is_writable <$> fst (_ensure_writable false target d) !! target
     = (λ _, true) <$> d !! target
  /\ is_writable <$> fst (_ensure_read_only false target d) !! target
     = (λ _, false) <$> d !! target
  /\ (d !! target = None ->
      _ensure_writable refused target d = (d, [])
      /\ _ensure_read_only refused target d = (d, [])).
Proof.
  unfold _ensure_writable, _ensure_read_only, chmod.
  destruct (d !! target) as [f|] eqn:Hf.
  - repeat split; try discriminate.
    + destruct refused; cbn [fst]; [reflexivity|].
      destruct (decide (p = target)) as [->|Hne].
      * rewrite lookup_insert_eq, Hf.
        cbv [fmap option_fmap option_map content st_mode].
        rewrite set_write_keeps_others. reflexivity.
      * rewrite lookup_insert_ne by congruence. reflexivity.
    + destruct refused; cbn [fst]; [reflexivity|].
      destruct (decide (p = target)) as [->|Hne].
      * rewrite lookup_insert_eq, Hf.
        cbv [fmap option_fmap option_map content st_mode].
        rewrite clear_write_keeps_others. reflexivity.
      * rewrite lookup_insert_ne by congruence. reflexivity.
    + cbn [fst]. rewrite lookup_insert_eq.
      cbv [fmap option_fmap option_map is_writable st_mode].
      rewrite testbit_set_write. reflexivity.
    + cbn [fst]. rewrite lookup_insert_eq.
      cbv [fmap option_fmap option_map is_writable st_mode].
      rewrite testbit_clear_write. reflexivity.
  - cbn [fst]. rewrite Hf. repeat split.
Qed.

(** ** The probe and the two monitors *)

(** X3. In [_is_process_running] the entries that raise
    psutil.NoSuchProcess or psutil.AccessDenied are transparent: the answer
    is that of the table without them.  When no entry raises anything else
    the answer is whether some process matches by name prefix or by
    resolved executable path; an entry that raises anything else ends the
    scan with that exception unless a match was found before it. *)
Theorem probe_skips_vanished_processes (lower resolve : string -> string)
        (stem path : string) (procs : list Probe.entry) :
  Probe._is_process_running lower resolve stem path procs
  = Probe._is_process_running lower resolve stem path
      (List.filter (λ e, negb (is_skipped e)) procs)
  /\ (forallb (λ e, negb (raises_through e)) procs = true ->
      Probe._is_process_running lower resolve stem path procs
      = Ok (existsb (entry_matches lower resolve stem path) procs))
  /\ (forall e rest,
        raises_through (Probe.Raises e) = true ->
        forallb (λ e, negb (raises_through e)) procs = true ->
        existsb (entry_matches lower resolve stem path) procs = false ->
        Probe._is_process_running lower resolve stem path
          (procs ++ Probe.Raises e :: rest) = Raise e).
Proof.
  split; [|split].
  - induction procs as [|[name exe|e] rest IH]; [reflexivity| |].
    + cbn [List.filter is_skipped negb Probe._is_process_running].
      rewrite IH. reflexivity.
    + destruct e; cbn [List.filter is_skipped negb Probe._is_process_running];
        try exact IH; reflexivity.
  - induction procs as [|[name exe|e] rest IH]; intros Hall; [reflexivity| |].
    + cbn [Probe._is_process_running existsb entry_matches].
      destruct (Probe.name_matches lower stem name); [reflexivity|].
      destruct (Probe.exe_matches resolve path exe); [reflexivity|].
      cbn [orb]. apply IH. exact Hall.
    + destruct e; cbn in Hall; try discriminate;
        cbn [Probe._is_process_running existsb entry_matches orb]; apply IH, Hall.
  - intros e rest He.
    induction procs as [|[name exe|e'] more IH]; intros Hall Hnone.
    + destruct e; cbn in He; try discriminate; reflexivity.
    + cbn [existsb entry_matches] in Hnone. apply orb_false_iff in Hnone as [Hm Hrest].
      apply orb_false_iff in Hm as [Hn Hx].
      cbn [app Probe._is_process_running]. rewrite Hn, Hx. apply IH; assumption.
    + cbn [existsb entry_matches orb] in Hnone.
      destruct e'; cbn in Hall; try discriminate;
        cbn [app Probe._is_process_running]; apply IH; assumption.
Qed.

(** X4. A [stop()] takes effect within one pass of [run].  When the stop
    event is seen at the loop head or in the wait, no callback is called
    any more, whatever the probe would answer or raise, and the thread has
    ended after that pass.  When [stop()] arrives while a pass is under
    way, the callbacks of that pass are still called (at most two: a log
    line with one edge, or one error), and then [run] has ended and calls
    nothing more. *)
Theorem stop_ends_the_monitor_within_one_pass (m : ConfigMonitor) (p : result bool)
        (probes : list (result bool)) :
  concat (snd (run_from (stop m) probes)) = []
  /\ status (fst (run_from (stop m) (p :: probes))) <> Running
  /\ snd (interrupted_iteration p m) = snd (iteration p m)
  /\ length (snd (interrupted_iteration p m)) <= 2
  /\ status (fst (interrupted_iteration p m)) <> Running
  /\ concat (snd (run_from (fst (interrupted_iteration p m)) probes)) = [].
Proof.
  assert (Hended : status (fst (interrupted_iteration p m)) <> Running).
  { unfold interrupted_iteration.
    destruct (status m) eqn:E; cbn; rewrite ?E; try congruence.
    destruct (_stop_event m); [cbn; congruence|].
    destruct p; cbn; congruence. }
  split; [|split; [|split; [|split; [|split]]]].
  - destruct probes as [|q rest]; [reflexivity|].
    cbn [run_from]. destruct (iteration_stopped q m) as [Hcb Hst].
    destruct (iteration q (stop m)) as [m1 cbs]. cbn [fst snd] in Hcb, Hst. subst cbs.
    rewrite (run_from_dead rest m1 Hst). cbn. apply concat_replicate_nil.
  - cbn [run_from]. destruct (iteration_stopped p m) as [_ Hst].
    destruct (iteration p (stop m)) as [m1 cbs]. cbn [fst] in Hst.
    rewrite (run_from_dead probes m1 Hst). exact Hst.
  - unfold interrupted_iteration, iteration.
    destruct (status m); [|reflexivity..].
    destruct (_stop_event m); [reflexivity|]. destruct p; reflexivity.
  - unfold interrupted_iteration, edge_callbacks.
    destruct (status m); cbn; try lia.
    destruct (_stop_event m); cbn; [lia|].
    destruct p as [running|e]; cbn; [|lia].
    destruct running, (last_running m); cbn; lia.
  - exact Hended.
  - rewrite (run_from_dead probes _ Hended). cbn. apply concat_replicate_nil.
Qed.

(** ** What the file operations leave alone *)

Lemma ensure_writable_frame (refused : bool) (target : string) (d : App.filesystem) :
  delete target (fst (_ensure_writable refused target d)) = delete target d.
Proof.
  unfold _ensure_writable, chmod. destruct (d !! target); [|reflexivity].
  destruct refused; cbn [fst]; [reflexivity|apply delete_insert_eq].
Qed.

Lemma ensure_read_only_frame (refused : bool) (target : string) (d : App.filesystem) :
  delete target (fst (_ensure_read_only refused target d)) = delete target d.
Proof.
  unfold _ensure_read_only, chmod. destruct (d !! target); [|reflexivity].
  destruct refused; cbn [fst]; [reflexivity|apply delete_insert_eq].
Qed.

Lemma ensure_writable_content (refused : bool) (target p : string) (d : App.filesystem) :
  content <$> fst (_ensure_writable refused target d) !! p = content <$> d !! p.
Proof.
  unfold _ensure_writable, chmod. destruct (d !! target) as [f|] eqn:Hf; [|reflexivity].
  destruct refused; cbn [fst]; [reflexivity|].
  destruct (decide (p = target)) as [->|Hne].
  - rewrite lookup_insert_eq, Hf. reflexivity.
  - rewrite lookup_insert_ne by congruence. reflexivity.
Qed.

Lemma copy2_frame (o : copy_outcome) (src dst : string) (d : App.filesystem) :
  delete dst (fst (copy2 o src dst d)) = delete dst d.
Proof.
  unfold copy2. destruct (d !! src); [|reflexivity].
  destruct (decide (src = dst)); [reflexivity|].
  destruct (d !! dst) as [old|]; [destruct (is_writable old)|];
    destruct o; cbn [fst]; try reflexivity; apply delete_insert_eq.
Qed.

Lemma copy2_same_file (o : copy_outcome) (p : string) (d : App.filesystem) :
  exists e, copy2 o p p d = (d, Raise e).
Proof.
  unfold copy2. destruct (d !! p); [|eauto].
  destruct (decide (p = p)); [eauto|contradiction].
Qed.

Lemma restore_files_frame (io : restore_io) (backup target : string)
      (d : App.filesystem) :
  delete target (fst (fst (restore_files io backup target d))) = delete target d.
Proof.
  unfold restore_files.
  pose proof (ensure_writable_frame (writable_chmod_refused io) target d) as H1.
  destruct (_ensure_writable (writable_chmod_refused io) target d) as [d1 c1].
  cbn [fst] in H1.
  pose proof (copy2_frame (copy_result io) backup target d1) as H2.
  destruct (copy2 (copy_result io) backup target d1) as [d2 [u|e]]; cbn [fst] in H2.
  - pose proof (ensure_read_only_frame (read_only_chmod_refused io) target d2) as H3.
    destruct (_ensure_read_only (read_only_chmod_refused io) target d2) as [d3 c3].
    cbn [fst] in H3 |- *. congruence.
  - cbn [fst]. congruence.
Qed.

Lemma restore_files_backup_content (io : restore_io) (backup target : string)
      (d : App.filesystem) :
  content <$> fst (fst (restore_files io backup target d)) !! backup
  = content <$> d !! backup.
Proof.
  destruct (decide (backup = target)) as [->|Hne].
  - unfold restore_files.
    pose proof (ensure_writable_content (writable_chmod_refused io) target target d) as H1.
    destruct (_ensure_writable (writable_chmod_refused io) target d) as [d1 c1].
    cbn [fst] in H1.
    destruct (copy2_same_file (copy_result io) target d1) as [e ->].
    cbn [fst]. exact H1.
  - pose proof (restore_files_frame io backup target d) as Hf.
    apply (f_equal (λ m, m !! backup)) in Hf.
    rewrite !lookup_delete_ne in Hf by congruence. rewrite Hf. reflexivity.
Qed.

Lemma restore_disk_cases (io : restore_io) (a : DeltaForceConfigApp) :
  (disk (_restore_backup_to_game io a) = disk a
   /\ fs_calls (_restore_backup_to_game io a) = fs_calls a)
  \/ exists live,
       selected_config_path a = Some live
       /\ disk (_restore_backup_to_game io a)
          = fst (fst (restore_files io BACKUP_FILE live (disk a))).
Proof.
  unfold _restore_backup_to_game. cbn.
  destruct (game_currently_running a); cbn; [|left; split; reflexivity].
  destruct (selected_config_path a) as [live|]; cbn; [|left; split; reflexivity].
  destruct (exists_on (disk a) live); cbn; [|left; split; reflexivity].
  destruct (exists_on (disk a) BACKUP_FILE); cbn; [|left; split; reflexivity].
  right. exists live. split; [reflexivity|].
  destruct (restore_files io BACKUP_FILE live (disk a)) as [[d calls] [u|e]]; reflexivity.
Qed.

(** X6. Whatever happens during a restore, it changes no file but the
    selected live configuration (nothing at all when none is selected),
    and the content of the backup is never altered, also when the copy or
    a chmod fails. *)
Theorem restore_touches_only_the_live_config (io : restore_io)
        (a : DeltaForceConfigApp) :
  match selected_config_path a with
  | Some live =>
      delete live (disk (_restore_backup_to_game io a)) = delete live (disk a)
  | None => disk (_restore_backup_to_game io a) = disk a
  end
  /\ content <$> disk (_restore_backup_to_game io a) !! BACKUP_FILE
     = content <$> disk a !! BACKUP_FILE.
Proof.
  destruct (restore_disk_cases io a) as [[Hsame _]|(live & Hsel & Hd)].
  - rewrite Hsame. split; [|reflexivity].
    destruct (selected_config_path a); reflexivity.
  - rewrite Hsel, Hd. split.
    + apply restore_files_frame.
    + apply restore_files_backup_content.
Qed.

(** X7. The restore makes system calls only when the game is reported
    running and both the selected configuration and the backup exist.
    Otherwise it calls nothing, leaves the disk alone, shows no dialog,
    writes one line to the log and clears the pending handle. *)
Theorem restore_needs_both_files (io : restore_io) (a : DeltaForceConfigApp) :
  game_currently_running a
  && match selected_config_path a with
     | Some live => exists_on (disk a) live && exists_on (disk a) BACKUP_FILE
     | None => false
     end = false ->
  disk (_restore_backup_to_game io a) = disk a
  /\ fs_calls (_restore_backup_to_game io a) = fs_calls a
  /\ dialogs (_restore_backup_to_game io a) = dialogs a
  /\ length (log_widget (_restore_backup_to_game io a)) = S (length (log_widget a))
  /\ pending_restore_job (_restore_backup_to_game io a) = None.
Proof.
  unfold _restore_backup_to_game. cbn.
  destruct (game_currently_running a); cbn;
    [|intros _; rewrite length_app; cbn; repeat split; lia].
  destruct (selected_config_path a) as [live|]; cbn;
    [|intros _; rewrite length_app; cbn; repeat split; lia].
  destruct (exists_on (disk a) live); cbn;
    [|intros _; rewrite length_app; cbn; repeat split; lia].
  destruct (exists_on (disk a) BACKUP_FILE); cbn; [discriminate|].
  intros _. rewrite length_app. cbn. repeat split. lia.
Qed.

Lemma restore_needs_both_files_witness :
  fs_calls (_restore_backup_to_game no_faults
              (with_disk (delete BACKUP_FILE demo_disk) [] (with_running true demo_app)))
  = []
  /\ disk (_restore_backup_to_game no_faults
             (with_disk (delete BACKUP_FILE demo_disk) [] (with_running true demo_app)))
     = delete BACKUP_FILE demo_disk.
Proof.
  destruct (restore_needs_both_files no_faults
              (with_disk (delete BACKUP_FILE demo_disk) [] (with_running true demo_app)))
    as (Hd & Hc & _); [vm_compute; reflexivity|].
  split; [exact Hc|exact Hd].
Defined.

(** ** Starting monitoring and closing the window *)

(** X8. [_start_monitoring] creates a thread exactly when the detect
    button is enabled by [_update_step_states] (no live thread, a selected
    configuration, an existing backup) and the executable was found; then
    the thread starts with [last_running = False] and no dialog is shown.
    Otherwise the held thread is kept and one dialog explains why.  In no
    case does it touch the timers or the pending restore, and the detect
    and stop buttons are never enabled together. *)
Theorem start_monitoring_guards (exe : option string) (a : DeltaForceConfigApp) :
  monitor_thread (_start_monitoring exe a)
  = (if detect_button (_update_step_states a)
        && match exe with Some _ => true | None => false end
     then Some started_thread else monitor_thread a)
  /\ length (dialogs (_start_monitoring exe a))
     = (if detect_button (_update_step_states a)
           && match exe with Some _ => true | None => false end
        then length (dialogs a) else S (length (dialogs a)))
  /\ root (_start_monitoring exe a) = root a
  /\ pending_restore_job (_start_monitoring exe a) = pending_restore_job a
  /\ detect_button (_update_step_states a) && stop_button (_update_step_states a) = false.
Proof.
  destruct a as [sel dv mt pj run cl rt dk calls lw dl nt st].
  unfold _start_monitoring, _update_step_states, _persist_settings,
    _get_restore_delay_seconds. cbn.
  destruct mt as [[se lr [| |e]]|]; cbn; destruct sel; cbn;
    destruct (exists_on dk BACKUP_FILE); cbn; destruct exe; cbn;
    rewrite ?length_app; cbn;
    try (destruct dv as [raw|]; [destruct (decide (clamp_delay raw = raw))|]; cbn);
    repeat split; lia.
Qed.

(** X9. [on_close] returns at once when [_closing] is already set, so a
    second call changes nothing.  The first call sets [_closing] and, when
    the delay entry can be read for the settings snapshot ([IntVar.get]
    answers an integer or raises TclError, the cases [restore_delay_var]
    stands for), destroys every scheduled callback and lets go of the
    monitor thread: no restore timer is left, also in a state in which
    [_stop_monitoring] alone would have kept it. *)
Theorem close_leaves_nothing_scheduled (a : DeltaForceConfigApp) :
  on_close (on_close a) = on_close a
  /\ (_closing a = true -> on_close a = a)
  /\ (_closing a = false ->
      _closing (on_close a) = true
      /\ timers (root (on_close a)) = []
      /\ live_restore_jobs (root (on_close a)) = []
      /\ monitor_thread (on_close a) = None).
Proof.
  destruct a as [sel dv mt pj run cl rt dk calls lw dl nt st].
  unfold on_close, _persist_settings, _get_restore_delay_seconds, _stop_monitoring,
    cancel_pending. cbn.
  destruct cl; cbn; [repeat split; discriminate|].
  destruct dv as [raw|]; [destruct (decide (clamp_delay raw = raw))|]; cbn;
    destruct mt; cbn; destruct pj; cbn; repeat split; discriminate.
Qed.

(** ** Backup, preset and restore *)

Lemma backup_disk_when_ready (io : copy_io) (a : DeltaForceConfigApp) (src : string) :
  selected_config_path a = Some src ->
  exists_on (disk a) src = true ->
  mkdir_fails io = false ->
  disk (_backup_selected_config io a)
  = fst (copy2 (copy_ends io) src BACKUP_FILE
           (fst (_ensure_writable (chmod_refused io) BACKUP_FILE (disk a)))).
Proof.
  intros Hsel Hex Hmk. unfold _backup_selected_config. rewrite Hsel, Hex, Hmk. cbn [negb].
  destruct (_ensure_writable (chmod_refused io) BACKUP_FILE (disk a)) as [d1 c1].
  cbn [fst].
  destruct (copy2 (copy_ends io) src BACKUP_FILE d1) as [d2 [u|e]]; reflexivity.
Qed.

Lemma backup_disk_otherwise (io : copy_io) (a : DeltaForceConfigApp) :
  match selected_config_path a with
  | Some src => exists_on (disk a) src && negb (mkdir_fails io)
  | None => false
  end = false ->
  disk (_backup_selected_config io a) = disk a
  /\ fs_calls (_backup_selected_config io a) = fs_calls a.
Proof.
  unfold _backup_selected_config.
  destruct (selected_config_path a) as [src|]; [|split; reflexivity].
  destruct (exists_on (disk a) src); cbn [negb andb]; [|split; reflexivity].
  destruct (mkdir_fails io); [split; reflexivity|discriminate].
Qed.

Lemma backup_keeps_selection (io : copy_io) (a : DeltaForceConfigApp) :
  selected_config_path (_backup_selected_config io a) = selected_config_path a.
Proof.
  unfold _backup_selected_config.
  destruct (selected_config_path a) as [src|] eqn:E; [|exact E].
  destruct (exists_on (disk a) src); cbn [negb]; [|exact E].
  destruct (mkdir_fails io); [exact E|].
  destruct (_ensure_writable (chmod_refused io) BACKUP_FILE (disk a)) as [d1 c1].
  destruct (copy2 (copy_ends io) src BACKUP_FILE d1) as [d2 [u|e]]; exact E.
Qed.

Lemma copy_over (src dst : string) (d : App.filesystem) (f : file) :
  d !! src = Some f -> src <> dst ->
  fst (copy2 copy_completes src dst (fst (_ensure_writable false dst d)))
  = <[dst := f]> d.
Proof.
  intros Hs Hne.
  pose proof (ensure_writable_other false dst src d Hne) as Hkeep.
  unfold _ensure_writable, chmod in *.
  destruct (d !! dst) as [old|] eqn:Hd; cbn [fst] in *.
  - rewrite (copy2_completes src dst _ f
               {| content := content old; st_mode := Z.lor (st_mode old) S_IWRITE |}).
    + cbn [fst]. apply insert_insert_eq.
    + rewrite Hkeep. exact Hs.
    + exact Hne.
    + apply lookup_insert_eq.
    + apply testbit_set_write.
  - unfold copy2. rewrite Hs, Hd.
    destruct (decide (src = dst)); [contradiction|reflexivity].
Qed.

(** X10. [_backup_selected_config] never changes a file other than the
    backup, so the selected configuration is left as it is, whatever
    fails.  When the copy goes through, the backup becomes an exact copy
    (content and mode) of the selected configuration.  Without a selected
    configuration that exists, nothing is called and nothing changes. *)
Theorem backup_copies_the_selected_config (io : copy_io) (a : DeltaForceConfigApp) :
  delete BACKUP_FILE (disk (_backup_selected_config io a))
  = delete BACKUP_FILE (disk a)
  /\ (forall src f,
        selected_config_path a = Some src ->
        disk a !! src = Some f ->
        src <> BACKUP_FILE ->
        disk (_backup_selected_config copy_goes_through a)
        = <[BACKUP_FILE := f]> (disk a))
  /\ (match selected_config_path a with
      | Some src => exists_on (disk a) src
      | None => false
      end = false ->
      disk (_backup_selected_config io a) = disk a
      /\ fs_calls (_backup_selected_config io a) = fs_calls a).
Proof.
  split; [|split].
  - pose proof (backup_disk_otherwise io a) as Hidle.
    destruct (selected_config_path a) as [src|] eqn:Hsel;
      [|destruct Hidle as [-> _]; reflexivity].
    destruct (exists_on (disk a) src) eqn:Hex;
      [|destruct Hidle as [-> _]; reflexivity].
    destruct (mkdir_fails io) eqn:Hmk;
      [destruct Hidle as [-> _]; reflexivity|].
    rewrite (backup_disk_when_ready io a src Hsel Hex Hmk).
    rewrite copy2_frame. apply ensure_writable_frame.
  - intros src f Hsel Hf Hne.
    rewrite (backup_disk_when_ready copy_goes_through a src Hsel);
      [|unfold exists_on; rewrite Hf; reflexivity|reflexivity].
    apply copy_over; assumption.
  - intros Hnone. apply backup_disk_otherwise.
    destruct (selected_config_path a) as [src|]; [|reflexivity].
    rewrite Hnone. reflexivity.
Qed.

Lemma template_disk_when_ready (tpls : list template) (i : nat) (io : copy_io)
      (a : DeltaForceConfigApp) (live : string) (tpl : template) :
  selected_config_path a = Some live ->
  exists_on (disk a) BACKUP_FILE = true ->
  tpls !! i = Some tpl ->
  disk (_apply_template tpls (Some i) io a)
  = fst (copy2 (copy_ends io) (engine_file tpl) live
           (fst (_ensure_writable (chmod_refused io) live (disk a)))).
Proof.
  intros Hsel Hex Htpl. unfold _apply_template. rewrite Hsel, Hex, Htpl. cbn [negb].
  destruct (_ensure_writable (chmod_refused io) live (disk a)) as [d1 c1].
  cbn [fst].
  destruct (copy2 (copy_ends io) (engine_file tpl) live d1) as [d2 [u|e]]; reflexivity.
Qed.

Lemma template_disk_cases (tpls : list template) (sel : option nat) (io : copy_io)
      (a : DeltaForceConfigApp) :
  (disk (_apply_template tpls sel io a) = disk a
   /\ fs_calls (_apply_template tpls sel io a) = fs_calls a)
  \/ exists live tpl,
       selected_config_path a = Some live
       /\ exists_on (disk a) BACKUP_FILE = true
       /\ disk (_apply_template tpls sel io a)
          = fst (copy2 (copy_ends io) (engine_file tpl) live
                   (fst (_ensure_writable (chmod_refused io) live (disk a)))).
Proof.
  destruct (selected_config_path a) as [live|] eqn:Hsel;
    [|left; unfold _apply_template; rewrite Hsel; split; reflexivity].
  destruct (exists_on (disk a) BACKUP_FILE) eqn:Hex;
    [|left; unfold _apply_template; rewrite Hsel, Hex; split; reflexivity].
  destruct sel as [i|];
    [|left; unfold _apply_template; rewrite Hsel, Hex; split; reflexivity].
  destruct (tpls !! i) as [tpl|] eqn:Htpl;
    [|left; unfold _apply_template; rewrite Hsel, Hex, Htpl; split; reflexivity].
  right. exists live, tpl. split; [reflexivity|]. split; [reflexivity|].
  apply template_disk_when_ready; assumption.
Qed.

Lemma template_keeps_selection (tpls : list template) (sel : option nat) (io : copy_io)
      (a : DeltaForceConfigApp) :
  selected_config_path (_apply_template tpls sel io a) = selected_config_path a.
Proof.
  unfold _apply_template.
  destruct (selected_config_path a) as [live|] eqn:E; [|exact E].
  destruct (exists_on (disk a) BACKUP_FILE); cbn [negb]; [|exact E].
  destruct sel as [i|]; [|exact E].
  destruct (tpls !! i) as [tpl|]; [|exact E].
  destruct (_ensure_writable (chmod_refused io) live (disk a)) as [d1 c1].
  destruct (copy2 (copy_ends io) (engine_file tpl) live d1) as [d2 [u|e]]; exact E.
Qed.

(** X11. [_apply_template] changes no file but the selected live
    configuration, whatever fails, and does nothing at all until step 1
    has produced a backup.  When the copy goes through, the live
    configuration becomes an exact copy of the chosen preset, also when it
    was read-only before. *)
Theorem preset_replaces_only_the_live_config (tpls : list template)
        (sel : option nat) (io : copy_io) (a : DeltaForceConfigApp) :
  match selected_config_path a with
  | Some live =>
      delete live (disk (_apply_template tpls sel io a)) = delete live (disk a)
  | None => disk (_apply_template tpls sel io a) = disk a
  end
  /\ (exists_on (disk a) BACKUP_FILE = false ->
      disk (_apply_template tpls sel io a) = disk a
      /\ fs_calls (_apply_template tpls sel io a) = fs_calls a)
  /\ (forall live i tpl f,
        selected_config_path a = Some live ->
        exists_on (disk a) BACKUP_FILE = true ->
        tpls !! i = Some tpl ->
        disk a !! engine_file tpl = Some f ->
        engine_file tpl <> live ->
        disk (_apply_template tpls (Some i) copy_goes_through a)
        = <[live := f]> (disk a)).
Proof.
  split; [|split].
  - destruct (template_disk_cases tpls sel io a)
      as [[-> _]|(live & tpl & Hsel & _ & ->)].
    + destruct (selected_config_path a); reflexivity.
    + rewrite Hsel, copy2_frame. apply ensure_writable_frame.
  - intros Hno.
    destruct (template_disk_cases tpls sel io a)
      as [Hsame|(live & tpl & _ & Hex & _)]; [exact Hsame|congruence].
  - intros live i tpl f Hsel Hex Htpl Hf Hne.
    rewrite (template_disk_when_ready tpls i copy_goes_through a live tpl Hsel Hex Htpl).
    apply copy_over; assumption.
Qed.

Lemma copy_over_full (src dst : string) (d : App.filesystem) (f : file) :
  d !! src = Some f -> src <> dst ->
  copy2 copy_completes src dst (fst (_ensure_writable false dst d))
  = (<[dst := f]> d, Ok tt).
Proof.
  intros Hs Hne.
  pose proof (ensure_writable_other false dst src d Hne) as Hkeep.
  unfold _ensure_writable, chmod in *.
  destruct (d !! dst) as [old|] eqn:Hd; cbn [fst] in *.
  - rewrite (copy2_completes src dst _ f
               {| content := content old; st_mode := Z.lor (st_mode old) S_IWRITE |}).
    + rewrite insert_insert_eq. reflexivity.
    + rewrite Hkeep. exact Hs.
    + exact Hne.
    + apply lookup_insert_eq.
    + apply testbit_set_write.
  - unfold copy2. rewrite Hs, Hd.
    destruct (decide (src = dst)); [contradiction|reflexivity].
Qed.

Lemma restore_files_no_faults (backup target : string) (d : App.filesystem)
      (B : file) :
  d !! backup = Some B -> backup <> target ->
  fst (fst (restore_files no_faults backup target d))
  = <[target := {| content := content B;
                   st_mode := Z.land (st_mode B) (Z.lnot S_IWRITE) |}]> d.
Proof.
  intros HB Hne. unfold restore_files. cbn [no_faults writable_chmod_refused
    copy_result read_only_chmod_refused].
  pose proof (copy_over_full backup target d B HB Hne) as Hcopy.
  destruct (_ensure_writable false target d) as [d1 c1]. cbn [fst] in Hcopy.
  rewrite Hcopy. unfold _ensure_read_only, chmod. rewrite lookup_insert_eq.
  cbn [fst]. apply insert_insert_eq.
Qed.

Lemma restore_disk_when_ready (io : restore_io) (a : DeltaForceConfigApp)
      (live : string) (B L : file) :
  game_currently_running a = true ->
  selected_config_path a = Some live ->
  disk a !! BACKUP_FILE = Some B ->
  disk a !! live = Some L ->
  disk (_restore_backup_to_game io a)
  = fst (fst (restore_files io BACKUP_FILE live (disk a))).
Proof.
  intros Hrun Hsel HB HL.
  rewrite (restore_backup_runs io a live B L Hrun Hsel HB HL).
  destruct (restore_files io BACKUP_FILE live (disk a)) as [[d calls] [u|e]];
    reflexivity.
Qed.

(** X12. The three steps compose: after a backup of the selected
    configuration, a preset copied over it and a restore while the game is
    reported running (all without faults), the live configuration holds
    its original content again, now read-only, and the backup still holds
    the original file; in between the live configuration was the preset. *)
Theorem backup_preset_restore_round_trip (tpls : list template) (i : nat)
        (tpl : template) (a : DeltaForceConfigApp) (live : string) (L T : file) :
  selected_config_path a = Some live ->
  disk a !! live = Some L ->
  live <> BACKUP_FILE ->
  tpls !! i = Some tpl ->
  disk a !! engine_file tpl = Some T ->
  engine_file tpl <> live ->
  engine_file tpl <> BACKUP_FILE ->
  disk (_apply_template tpls (Some i) copy_goes_through
          (_backup_selected_config copy_goes_through a)) !! live = Some T
  /\ disk (_restore_backup_to_game no_faults
             (with_running true
                (_apply_template tpls (Some i) copy_goes_through
                   (_backup_selected_config copy_goes_through a)))) !! live
     = Some {| content := content L;
               st_mode := Z.land (st_mode L) (Z.lnot S_IWRITE) |}
  /\ disk (_restore_backup_to_game no_faults
             (with_running true
                (_apply_template tpls (Some i) copy_goes_through
                   (_backup_selected_config copy_goes_through a)))) !! BACKUP_FILE
     = Some L.
Proof.
  intros Hsel HL Hne Htpl HT Hnl Hnb.
  assert (Hd1 : disk (_backup_selected_config copy_goes_through a)
                = <[BACKUP_FILE := L]> (disk a)).
  { rewrite (backup_disk_when_ready copy_goes_through a live Hsel);
      [|unfold exists_on; rewrite HL; reflexivity|reflexivity].
    apply copy_over; assumption. }
  assert (Hsel1 : selected_config_path (_backup_selected_config copy_goes_through a)
                  = Some live) by (rewrite backup_keeps_selection; exact Hsel).
  assert (Hd2 : disk (_apply_template tpls (Some i) copy_goes_through
                        (_backup_selected_config copy_goes_through a))
                = <[live := T]> (<[BACKUP_FILE := L]> (disk a))).
  { rewrite (template_disk_when_ready tpls i copy_goes_through _ live tpl Hsel1);
      [| |exact Htpl].
    - rewrite Hd1. apply copy_over; [|exact Hnl].
      rewrite lookup_insert_ne by congruence. exact HT.
    - unfold exists_on. rewrite Hd1, lookup_insert_eq. reflexivity. }
  assert (Hsel2 : selected_config_path
                    (_apply_template tpls (Some i) copy_goes_through
                       (_backup_selected_config copy_goes_through a)) = Some live)
    by (rewrite template_keeps_selection; exact Hsel1).
  split; [rewrite Hd2; apply lookup_insert_eq|].
  rewrite (restore_disk_when_ready no_faults _ live L T);
    [|reflexivity|exact Hsel2| |].
  - cbn [disk with_running]. rewrite Hd2.
    rewrite (restore_files_no_faults BACKUP_FILE live _ L);
      [|rewrite lookup_insert_ne by congruence; apply lookup_insert_eq|congruence].
    split; [apply lookup_insert_eq|].
    rewrite !lookup_insert_ne by congruence. apply lookup_insert_eq.
  - cbn [disk with_running]. rewrite Hd2.
    rewrite lookup_insert_ne by congruence. apply lookup_insert_eq.
  - cbn [disk with_running]. rewrite Hd2. apply lookup_insert_eq.
Qed.

Lemma backup_preset_restore_round_trip_witness :
  content <$> disk (_apply_template [balanced_preset] (Some 0%nat) copy_goes_through
                      (_backup_selected_config copy_goes_through fresh_app))
                !! live_config
  = Some "[Core]balanced"
  /\ disk (_restore_backup_to_game no_faults
             (with_running true
                (_apply_template [balanced_preset] (Some 0%nat) copy_goes_through
                   (_backup_selected_config copy_goes_through fresh_app))))
       !! live_config
     = Some {| content := "[Core]original"; st_mode := 310 |}.
Proof.
  destruct (backup_preset_restore_round_trip [balanced_preset] 0 balanced_preset
              fresh_app live_config
              {| content := "[Core]original"; st_mode := 438 |}
              {| content := "[Core]balanced"; st_mode := 438 |})
    as (Hmid & Hend & _);
    try (vm_compute; reflexivity); try (vm_compute; discriminate).
  split; [rewrite Hmid; reflexivity|exact Hend].
Defined.

(** ** The search results *)

Lemma unique_from_spec (normcase : string -> string) (d : App.filesystem)
      (matches : list string) : forall seen : gset string,
  NoDup (normcase <$> unique_from normcase seen d matches)
  /\ (forall k, k ∈ normcase <$> unique_from normcase seen d matches -> k ∉ seen)
  /\ unique_from normcase seen d matches `sublist_of` matches
  /\ Forall (λ p, exists_on d p = true) (unique_from normcase seen d matches)
  /\ (forall p, p ∈ matches -> exists_on d p = true ->
        normcase p ∈ seen
        \/ normcase p ∈ normcase <$> unique_from normcase seen d matches).
Proof.
  induction matches as [|path rest IH]; intros seen.
  - cbn. split_and!.
    + constructor.
    + intros k Hk. apply elem_of_nil in Hk as [].
    + constructor.
    + constructor.
    + intros p Hp. apply elem_of_nil in Hp as [].
  - cbn [unique_from].
    destruct (exists_on d path) eqn:Hex; cbn [andb].
    + destruct (bool_decide (normcase path ∈ seen)) eqn:Hseen; cbn [negb].
      * apply bool_decide_eq_true in Hseen.
        destruct (IH seen) as (Hnd & Hfresh & Hsub & Hall & Hcov).
        split_and!; try assumption.
        -- apply sublist_cons. exact Hsub.
        -- intros p Hp Hpex. apply elem_of_cons in Hp as [->|Hp];
             [left; exact Hseen|apply Hcov; assumption].
      * apply bool_decide_eq_false in Hseen.
        destruct (IH ({[normcase path]} ∪ seen)) as (Hnd & Hfresh & Hsub & Hall & Hcov).
        split_and!.
        -- rewrite fmap_cons. constructor; [|exact Hnd].
           intros Hin. apply (Hfresh _ Hin).
           apply elem_of_union. left. apply elem_of_singleton. reflexivity.
        -- intros k Hk. rewrite fmap_cons in Hk. apply elem_of_cons in Hk as [->|Hk];
             [exact Hseen|].
           intros Hks. apply (Hfresh _ Hk). apply elem_of_union. right. exact Hks.
        -- apply sublist_skip. exact Hsub.
        -- constructor; assumption.
        -- intros p Hp Hpex. rewrite fmap_cons.
           apply elem_of_cons in Hp as [->|Hp]; [right; left|].
           destruct (Hcov p Hp Hpex) as [Hs|Hr].
           ++ apply elem_of_union in Hs as [Hs|Hs].
              ** apply elem_of_singleton in Hs. right. rewrite Hs. left.
              ** left. exact Hs.
           ++ right. right. exact Hr.
    + destruct (IH seen) as (Hnd & Hfresh & Hsub & Hall & Hcov).
      split_and!; try assumption.
      * apply sublist_cons. exact Hsub.
      * intros p Hp Hpex. apply elem_of_cons in Hp as [->|Hp];
          [congruence|apply Hcov; assumption].
Qed.

(** X13. The list that [_search_configs] shows holds no path twice, also
    not up to the case folding under which two paths are equal; it keeps
    the order of the matches found, holds only files that exist, and every
    existing match is represented in it. *)
Theorem search_results_are_unique_and_existing (normcase : string -> string)
        (d : App.filesystem) (matches : list string) :
  NoDup (normcase <$> unique_matches normcase d matches)
  /\ unique_matches normcase d matches `sublist_of` matches
  /\ Forall (λ p, exists_on d p = true) (unique_matches normcase d matches)
  /\ (forall p, p ∈ matches -> exists_on d p = true ->
        normcase p ∈ normcase <$> unique_matches normcase d matches).
Proof.
  destruct (unique_from_spec normcase d matches ∅) as (Hnd & _ & Hsub & Hall & Hcov).
  split_and!; try assumption.
  intros p Hp Hex. destruct (Hcov p Hp Hex) as [Hs|Hr]; [|exact Hr].
  apply elem_of_empty in Hs as [].
Qed.

(** ** The search paths kept in the settings *)

Lemma lstrip_suffix (s : text) : exists p, s = p ++ lstrip s.
Proof.
  induction s as [|c rest [p Hp]]; [exists []; reflexivity|].
  cbn [lstrip]. destruct (isspace c); [|exists []; reflexivity].
  exists (c :: p). cbn. rewrite <- Hp. reflexivity.
Qed.

Lemma lstrip_head (s : text) : clean_end (lstrip s).
Proof.
  induction s as [|c rest IH]; [exact I|].
  cbn [lstrip]. destruct (isspace c) eqn:E; [exact IH|exact E].
Qed.

Lemma lstrip_fixed (s : text) : clean_end s -> lstrip s = s.
Proof. destruct s as [|c rest]; [reflexivity|]. cbn. intros ->. reflexivity. Qed.

Lemma strip_ends (s : text) : clean_end (strip s) /\ clean_end (rev (strip s)).
Proof.
  unfold strip. rewrite rev_involutive. split; [|apply lstrip_head].
  destruct (lstrip_suffix (rev (lstrip s))) as [p Hp].
  pose proof (lstrip_head s) as Hhead.
  destruct (lstrip (rev (lstrip s))) as [|c u] using rev_ind; [exact I|].
  clear IHu. rewrite rev_unit. cbn.
  apply (f_equal (@rev N)) in Hp. rewrite rev_involutive, rev_app_distr, rev_unit in Hp.
  rewrite Hp in Hhead. exact Hhead.
Qed.

Lemma strip_fixed (s : text) : clean_end s -> clean_end (rev s) -> strip s = s.
Proof.
  intros Hs Hr. unfold strip. rewrite (lstrip_fixed s Hs), (lstrip_fixed _ Hr).
  apply rev_involutive.
Qed.

Lemma strip_idempotent (s : text) : strip (strip s) = strip s.
Proof. destruct (strip_ends s). apply strip_fixed; assumption. Qed.

Lemma strip_keeps_only (c : N) (s : text) : c ∈ strip s -> c ∈ s.
Proof.
  unfold strip. intros H. apply list_elem_of_In, in_rev, list_elem_of_In in H.
  destruct (lstrip_suffix (rev (lstrip s))) as [p Hp].
  assert (H1 : c ∈ rev (lstrip s)) by (rewrite Hp; apply elem_of_app; right; exact H).
  apply list_elem_of_In, in_rev, list_elem_of_In in H1.
  destruct (lstrip_suffix s) as [q Hq]. rewrite Hq. apply elem_of_app. right. exact H1.
Qed.

Lemma split_from_pieces (sep : N) (s : text) : forall cur,
  sep ∉ cur -> Forall (λ x, sep ∉ x) (SearchPaths.split_from sep cur s).
Proof.
  induction s as [|c rest IH]; intros cur Hcur; cbn [SearchPaths.split_from].
  - constructor; [|constructor]. intros H. apply Hcur.
    apply list_elem_of_In, in_rev, list_elem_of_In in H. exact H.
  - destruct (decide (c = sep)) as [->|Hne].
    + constructor.
      * intros H. apply Hcur. apply list_elem_of_In, in_rev, list_elem_of_In in H. exact H.
      * apply IH. apply not_elem_of_nil.
    + apply IH. intros H. apply elem_of_cons in H as [H|H]; [congruence|contradiction].
Qed.

Lemma split_from_piece (sep : N) (x : text) : forall cur,
  sep ∉ x -> SearchPaths.split_from sep cur x = [rev cur ++ x].
Proof.
  induction x as [|c rest IH]; intros cur Hx; cbn [SearchPaths.split_from].
  - rewrite app_nil_r. reflexivity.
  - destruct (decide (c = sep)) as [->|Hne]; [exfalso; apply Hx; left|].
    rewrite IH; [|intros H; apply Hx; right; exact H].
    cbn [rev]. rewrite <- app_assoc. reflexivity.
Qed.

Lemma split_from_app (sep : N) (x rest : text) : forall cur,
  sep ∉ x ->
  SearchPaths.split_from sep cur (x ++ sep :: rest)
  = (rev cur ++ x) :: SearchPaths.split_from sep [] rest.
Proof.
  induction x as [|c more IH]; intros cur Hx; cbn [app SearchPaths.split_from].
  - destruct (decide (sep = sep)); [|contradiction]. rewrite app_nil_r. reflexivity.
  - destruct (decide (c = sep)) as [->|Hne]; [exfalso; apply Hx; left|].
    rewrite IH; [|intros H; apply Hx; right; exact H].
    cbn [rev]. rewrite <- app_assoc. reflexivity.
Qed.

Lemma split_join (sep : N) (x : text) (items : list text) :
  Forall (λ y, sep ∉ y) (x :: items) ->
  SearchPaths.split sep (SearchPaths.join_with sep (x :: items)) = x :: items.
Proof.
  revert x. induction items as [|y rest IH]; intros x Hall.
  - apply Forall_cons in Hall as [Hx _]. cbn. unfold SearchPaths.split.
    apply split_from_piece. exact Hx.
  - apply Forall_cons in Hall as [Hx Hrest].
    change (SearchPaths.join_with sep (x :: y :: rest))
      with (x ++ sep :: SearchPaths.join_with sep (y :: rest)).
    unfold SearchPaths.split. rewrite split_from_app by exact Hx.
    cbn [rev app]. f_equal. apply IH. exact Hrest.
Qed.

Lemma parsed_paths_clean (raw : text) :
  Forall (λ p, nonblank p = true /\ strip p = p /\ SearchPaths.semicolon ∉ p)
    (SearchPaths._parse_search_paths raw).
Proof.
  unfold SearchPaths._parse_search_paths, SearchPaths.split.
  pose proof (split_from_pieces SearchPaths.semicolon raw [] (not_elem_of_nil _)) as Hp.
  induction Hp as [|x l Hx Hl IH]; [constructor|].
  cbn [List.filter]. destruct (nonblank x) eqn:Hnb; [|exact IH].
  cbn [map]. constructor; [|exact IH]. split_and!.
  - unfold nonblank in *. rewrite strip_idempotent. exact Hnb.
  - apply strip_idempotent.
  - intros H. apply Hx. apply strip_keeps_only. exact H.
Qed.

Lemma filter_map_clean (items : list text) :
  Forall (λ p, nonblank p = true /\ strip p = p /\ SearchPaths.semicolon ∉ p) items ->
  List.filter nonblank items = items /\ map strip items = items
  /\ Forall (λ y, SearchPaths.semicolon ∉ y) items.
Proof.
  induction 1 as [|x l (Hnb & Hst & Hsep) Hl (IH1 & IH2 & IH3)];
    [split_and!; constructor|].
  cbn [List.filter map]. rewrite Hnb, IH1, IH2, Hst.
  split_and!; try reflexivity. constructor; assumption.
Qed.

(** X14. Every search path that [_parse_search_paths] returns is
    non-empty, carries no surrounding whitespace and contains no
    semicolon.  The list survives a save and a reload: parsing the text
    that [_apply_loaded_settings] puts into the search entry for a saved
    list gives that list back; when the saved list is empty the entry
    keeps its initial text. *)
Theorem search_paths_survive_save_and_load (initial raw : text) :
  Forall (λ p, nonblank p = true /\ strip p = p /\ SearchPaths.semicolon ∉ p)
    (SearchPaths._parse_search_paths raw)
  /\ SearchPaths._parse_search_paths
       (SearchPaths.search_var_after_load initial (SearchPaths._parse_search_paths raw))
     = match SearchPaths._parse_search_paths raw with
       | [] => SearchPaths._parse_search_paths initial
       | saved => saved
       end.
Proof.
  pose proof (parsed_paths_clean raw) as Hclean. split; [exact Hclean|].
  destruct (filter_map_clean _ Hclean) as (Hf & Hm & Hsep).
  destruct (SearchPaths._parse_search_paths raw) as [|x rest] eqn:E; [reflexivity|].
  unfold SearchPaths.search_var_after_load, SearchPaths.loaded_search_text.
  rewrite Hf. unfold SearchPaths._parse_search_paths at 1.
  rewrite (split_join _ x rest Hsep), Hf. exact Hm.
Qed.

(** ** chazhao.py: the configuration files found *)

Lemma ends_with_target_suffix (candidate_parts : list string) :
  Chazhao.ends_with_target candidate_parts = true
  <-> exists prefix, candidate_parts = prefix ++ Chazhao.TARGET_SUFFIX.
Proof.
  unfold Chazhao.ends_with_target. rewrite andb_true_iff, bool_decide_eq_true. split.
  - intros [_ Hdrop].
    exists (take (length candidate_parts - length Chazhao.TARGET_SUFFIX) candidate_parts).
    pose proof (take_drop (length candidate_parts - length Chazhao.TARGET_SUFFIX)
                  candidate_parts) as Hsplit.
    rewrite Hdrop in Hsplit. symmetry. exact Hsplit.
  - intros [prefix ->]. rewrite length_app. split.
    + apply Nat.leb_le. lia.
    + replace (length prefix + length Chazhao.TARGET_SUFFIX
               - length Chazhao.TARGET_SUFFIX)%nat with (length prefix) by lia.
      apply drop_app_length.
Qed.

(** X15. [find_game_configs] returns exactly the paths that [rglob]
    yields under a root that exists, that are files, and that end with the
    components DeltaForce/Saved/Config/WindowsClient/GameUserSettings.ini;
    roots that do not exist contribute nothing, and the results of several
    roots follow each other in the order of the roots. *)
Theorem found_configs_end_with_the_target_path (roots more : list Chazhao.root_dir) :
  (forall found,
     found ∈ Chazhao.find_game_configs roots
     <-> exists root c prefix,
           root ∈ roots /\ Chazhao.root_exists root = true
           /\ c ∈ Chazhao.rglob root /\ Chazhao.is_file c = true
           /\ Chazhao.parts c = found
           /\ found = prefix ++ Chazhao.TARGET_SUFFIX)
  /\ Chazhao.find_game_configs (List.filter Chazhao.root_exists roots)
     = Chazhao.find_game_configs roots
  /\ Chazhao.find_game_configs (roots ++ more)
     = Chazhao.find_game_configs roots ++ Chazhao.find_game_configs more.
Proof.
  split_and!.
  - intros found. unfold Chazhao.find_game_configs. split.
    + intros Hin. apply list_elem_of_In, in_concat in Hin as (l & Hl & Hfound).
      apply in_map_iff in Hl as (root & <- & Hroot).
      apply list_elem_of_In in Hroot.
      unfold Chazhao.matches_of in Hfound.
      destruct (Chazhao.root_exists root) eqn:Hex; [|destruct Hfound].
      apply in_map_iff in Hfound as (c & <- & Hc).
      apply filter_In in Hc as [Hc Hkeep].
      apply andb_true_iff in Hkeep as [Hfile Hend].
      apply ends_with_target_suffix in Hend as [prefix Hend].
      exists root, c, prefix. split_and!; try assumption; try reflexivity.
      apply list_elem_of_In. exact Hc.
    + intros (root & c & prefix & Hroot & Hex & Hc & Hfile & <- & Hend).
      apply list_elem_of_In, in_concat. exists (Chazhao.matches_of root). split.
      * apply in_map, list_elem_of_In. exact Hroot.
      * unfold Chazhao.matches_of. rewrite Hex.
        apply in_map, filter_In. split; [apply list_elem_of_In; exact Hc|].
        rewrite Hfile. cbn [andb]. apply ends_with_target_suffix.
        exists prefix. exact Hend.
  - unfold Chazhao.find_game_configs.
    induction roots as [|root rest IH]; [reflexivity|].
    cbn [List.filter]. destruct (Chazhao.root_exists root) eqn:Hex.
    + cbn [map concat]. rewrite IH. reflexivity.
    + cbn [map concat]. rewrite IH. unfold Chazhao.matches_of at 2. rewrite Hex.
      reflexivity.
  - unfold Chazhao.find_game_configs. rewrite map_app. apply concat_app.
Qed.
